(** * TranslateEndNote: skip rules, failure ledger, page merge, metadata

    A shallow embedding of the batch translator
    ([src/pdf_batch_translator.py]) and of its companion tools
    ([utils/concatePDF.py], [utils/pdf_splitter.py],
    [utils/pdf_pair_metadata_manager.py],
    [utils/pdf_orphan_metadata_manager.py]), followed by the properties of
    the design document that can be stated over it.

    Conventions.
    - A Python [str] is a list of Unicode code points ([Py.str]); the
      Unicode character tables that Python consults ([str.isdigit],
      [str.isalpha], [str.isspace], [int], [str.lower]) are an interface
      ([Py.Unicode]) fixed only on the ASCII range.
    - A Python function that may raise returns [res]; [Raise e] is the
      exception leaving the function.
    - A dict is a [gmap]; the file system is a [gmap] from path strings to
      files; PyMuPDF documents are records of pages and embedded files. *)

From Stdlib Require Import ZArith NArith QArith List String Ascii Bool Lia.
From Stdlib Require Import Decimal DecimalNat Qminmax Qcanon.
From stdpp Require Import base option gmap list strings.

Set Default Proof Using "Type".
Set Warnings "-register-all".
Local Open Scope N_scope.

(** ** Exceptions *)

Inductive exn : Type :=
| ValueError
| NameError (name : string)
| AttributeError
| FileNotFoundError
| PermissionError
| OSError
| StatisticsError
| JSONDecodeError
| FitzError.

Inductive res (A : Type) : Type :=
| Ok (a : A)
| Raise (e : exn).
Arguments Ok {A} a.
Arguments Raise {A} e.

#[global] Instance res_ret : MRet res := fun A a => Ok a.
#[global] Instance res_bind : MBind res := fun A B f m =>
  match m with
  | Ok a => f a
  | Raise e => Raise e
  end.

#[global] Instance res_fmap : FMap res := fun A B f m =>
  match m with
  | Ok a => Ok (f a)
  | Raise e => Raise e
  end.

(** [try: m except Exception: h] *)
Definition try_except {A} (m : res A) (h : exn -> res A) : res A :=
  match m with
  | Ok a => Ok a
  | Raise e => h e
  end.

(** ** Python strings *)

Module Py.

Definition char := N.
Definition str := list N.

(** An ASCII literal of the source. *)
Definition lit (s : string) : str :=
  List.map N_of_ascii (list_ascii_of_string s).

Definition is_ascii (c : char) : bool := c <? 128.
Definition ascii_isdigit (c : char) : bool := (48 <=? c) && (c <=? 57).
Definition ascii_isupper (c : char) : bool := (65 <=? c) && (c <=? 90).
Definition ascii_islower (c : char) : bool := (97 <=? c) && (c <=? 122).
Definition ascii_isalpha (c : char) : bool := ascii_isupper c || ascii_islower c.
(** TAB, LF, VT, FF, CR, FS, GS, RS, US and SPACE. *)
Definition ascii_isspace (c : char) : bool :=
  ((9 <=? c) && (c <=? 13)) || ((28 <=? c) && (c <=? 31)) || (c =? 32).
Definition ascii_decimal (c : char) : option nat :=
  if ascii_isdigit c then Some (N.to_nat (c - 48)) else None.
Definition ascii_lower (c : char) : char :=
  if ascii_isupper c then c + 32 else c.

(** The character database of the interpreter.  [decimal c] is the value
    of [c] when [int] accepts it as a digit; [isdigit] is wider (it holds
    of superscript digits, which [int] refuses). *)
Class Unicode : Type := {
  isdigit : char -> bool;
  isalpha : char -> bool;
  isspace : char -> bool;
  decimal : char -> option nat;
  lower : str -> str;
  isdigit_ascii : forall c, is_ascii c = true -> isdigit c = ascii_isdigit c;
  isalpha_ascii : forall c, is_ascii c = true -> isalpha c = ascii_isalpha c;
  isspace_ascii : forall c, is_ascii c = true -> isspace c = ascii_isspace c;
  decimal_ascii : forall c, is_ascii c = true -> decimal c = ascii_decimal c;
  lower_ascii : forall s, forallb is_ascii s = true ->
                          lower s = List.map ascii_lower s
}.

(** The database restricted to ASCII: no other character is a digit, a
    letter or a space, and [lower] touches only [A-Z]. *)
#[refine] Instance ascii_only : Unicode := {|
  isdigit := ascii_isdigit;
  isalpha := ascii_isalpha;
  isspace := ascii_isspace;
  decimal := ascii_decimal;
  lower := List.map ascii_lower
|}.
Proof. all: reflexivity. Defined.

Section Strings.
Context {U : Unicode}.

(** [s.isdigit()] *)
Definition str_isdigit (s : str) : bool :=
  negb (Nat.eqb (length s) 0) && forallb isdigit s.

(** [int(s)] for a string of digits: base ten over the decimal values,
    [ValueError] when a character has none. *)
Fixpoint int_acc (acc : nat) (s : str) : res nat :=
  match s with
  | [] => Ok acc
  | c :: s' =>
      match decimal c with
      | Some d => int_acc (10 * acc + d)%nat s'
      | None => Raise ValueError
      end
  end.
Definition int (s : str) : res nat :=
  match s with
  | [] => Raise ValueError
  | _ => int_acc 0%nat s
  end.

(** [s.split(sep)] for a one-character separator. *)
Fixpoint split (sep : char) (s : str) : list str :=
  match s with
  | [] => [[]]
  | c :: s' =>
      if c =? sep then [] :: split sep s'
      else match split sep s' with
           | p :: ps => (c :: p) :: ps
           | [] => [[c]]
           end
  end.

(** [sep.join(parts)] *)
Fixpoint join (sep : str) (parts : list str) : str :=
  match parts with
  | [] => []
  | [p] => p
  | p :: ps => p ++ sep ++ join sep ps
  end.

(** [s.startswith(p)] *)
Fixpoint startswith (s p : str) : bool :=
  match p, s with
  | [], _ => true
  | _ :: _, [] => false
  | a :: p', b :: s' => (a =? b) && startswith s' p'
  end.

(** [s.endswith(p)] *)
Definition endswith (s p : str) : bool := startswith (rev s) (rev p).

(** [p in s] *)
Fixpoint contains (s p : str) : bool :=
  startswith s p ||
  match s with
  | [] => false
  | _ :: s' => contains s' p
  end.

Fixpoint lstrip (s : str) : str :=
  match s with
  | [] => []
  | c :: s' => if isspace c then lstrip s' else s
  end.

(** [s.strip()] *)
Definition strip (s : str) : str := rev (lstrip (rev (lstrip s))).

(** [s.rsplit(sep, 1)]: cut at the last separator, if there is one. *)
Fixpoint rsplit1 (sep : char) (s : str) : list str :=
  match s with
  | [] => [[]]
  | c :: s' =>
      match rsplit1 sep s' with
      | [p] => if c =? sep then [[]; p] else [c :: p]
      | [p; q] => [c :: p; q]
      | l => l
      end
  end.

End Strings.

(** [str(n)] for a natural number and for an integer. *)
Fixpoint str_of_uint (d : uint) : str :=
  match d with
  | Nil => []
  | D0 d => 48 :: str_of_uint d
  | D1 d => 49 :: str_of_uint d
  | D2 d => 50 :: str_of_uint d
  | D3 d => 51 :: str_of_uint d
  | D4 d => 52 :: str_of_uint d
  | D5 d => 53 :: str_of_uint d
  | D6 d => 54 :: str_of_uint d
  | D7 d => 55 :: str_of_uint d
  | D8 d => 56 :: str_of_uint d
  | D9 d => 57 :: str_of_uint d
  end.
Definition str_of_nat (n : nat) : str := str_of_uint (Nat.to_uint n).
Definition str_of_Z (z : Z) : str :=
  match Z.to_int z with
  | Decimal.Pos d => str_of_uint d
  | Decimal.Neg d => 45 :: str_of_uint d
  end.

(** [sorted(l)] for the order [leb]: stable, like the interpreter's sort. *)
Fixpoint insert_sorted {A} (leb : A -> A -> bool) (x : A) (l : list A) : list A :=
  match l with
  | [] => [x]
  | y :: l' => if leb x y then x :: l else y :: insert_sorted leb x l'
  end.
Definition sorted {A} (leb : A -> A -> bool) (l : list A) : list A :=
  fold_right (insert_sorted leb) [] l.

(** Lexicographic order of [str], by code point. *)
Fixpoint str_leb (a b : str) : bool :=
  match a, b with
  | [], _ => true
  | _ :: _, [] => false
  | x :: a', y :: b' => (x <? y) || ((x =? y) && str_leb a' b')
  end.

End Py.

Export Py.

(** ** Floating point

    Page sizes and gaps are Python floats.  Sums, differences and halves
    of floats are taken exactly here, and the rounding that the source
    asks for, [round(x, 2)], is an interface: [round2 q] stands for
    [round] applied to the float nearest to [q].  It is fixed on the
    integers a float holds exactly. *)

Class Float : Type := {
  round2 : Q -> Q;
  round2_proper : forall a b, (a == b)%Q -> (round2 a == round2 b)%Q;
  round2_int : forall z : Z, (Z.abs z <= 2 ^ 53)%Z ->
                             (round2 (inject_Z z) == inject_Z z)%Q
}.

(** Rounding of the exact value to two decimals, halves to even. *)
Definition round_half_even (q : Q) : Q :=
  let q := Qred q in
  let n := (Qnum q * 100)%Z in
  let d := Z.pos (Qden q) in
  let f := (n / d)%Z in
  let r := (2 * (n mod d))%Z in
  let k := if (r <? d)%Z then f
           else if (d <? r)%Z then (f + 1)%Z
           else if Z.even f then f else (f + 1)%Z in
  Qred (Qmake k 100).

#[refine] Instance exact_round2 : Float := {| round2 := round_half_even |}.
Proof.
  - intros a b Hab. unfold round_half_even.
    rewrite (Qred_complete a b Hab). reflexivity.
  - intros z _. unfold round_half_even.
    assert (Hr : Qred (inject_Z z) = inject_Z z).
    { apply Qred_identity. apply Z.gcd_1_r. }
    rewrite Hr. cbn [Qnum Qden inject_Z].
    rewrite Z.div_1_r, Z.mod_1_r.
    change (2 * 0 <? 1)%Z with true. cbv iota.
    rewrite Qred_correct. unfold Qeq. cbn [Qnum Qden inject_Z]. ring.
Defined.

(** ** pathlib *)

Module pathlib.

(** A path is its directory part and its final component. *)
Record Path : Type := mkPath { parent : str; name : str }.

Definition os_sep : char := 47.

(** [str(p)] *)
Definition path_str (p : Path) : str := parent p ++ [os_sep] ++ name p.

(** [p.stem]: the final component without its last suffix; a leading or a
    trailing dot starts no suffix. *)
Definition stem {U : Unicode} (p : Path) : str :=
  match rsplit1 46 (name p) with
  | [base; ext] =>
      match base, ext with
      | _ :: _, _ :: _ => base
      | _, _ => name p
      end
  | _ => name p
  end.

(** [p.with_name(n)]: [ValueError] when [p] has no final component. *)
Definition with_name (p : Path) (n : str) : res Path :=
  match name p with
  | [] => Raise ValueError
  | _ => Ok (mkPath (parent p) n)
  end.

End pathlib.
Export pathlib.

(** ** JSON values and attachment payloads *)

Inductive json : Type :=
| JNull
| JBool (b : bool)
| JNum (q : Q)
| JStr (s : str)
| JArr (items : list json)
| JObj (fields : list (str * json)).

Definition str_eqb (a b : str) : bool := bool_decide (a = b).

Definition json_is_str (j : json) (s : str) : bool :=
  match j with
  | JStr t => str_eqb t s
  | _ => false
  end.

(** [d.get(key, default)] on the value [json.loads] returned:
    [AttributeError] when it is not a dict. *)
Fixpoint assoc_get (key : str) (fields : list (str * json)) : option json :=
  match fields with
  | [] => None
  | (k, v) :: rest => if str_eqb k key then Some v else assoc_get key rest
  end.
Definition json_get (j : json) (key : str) (default : json) : res json :=
  match j with
  | JObj fields => Ok (from_option id default (assoc_get key fields))
  | _ => Raise AttributeError
  end.

(** What [embfile_get] hands back.  Only what the readers do with the
    bytes is kept: whether they are empty, and what
    [json.loads(b.decode('utf-8'))] makes of them. *)
Inductive bytes : Type :=
| BEmpty
| BJson (j : json)
| BGarbage.

(** [json.dumps(j, ...).encode('utf-8')] *)
Definition json_dumps_encode (j : json) : bytes := BJson j.

(** [json.loads(b.decode('utf-8'))] *)
Definition json_loads_decode (b : bytes) : res json :=
  match b with
  | BJson j => Ok j
  | _ => Raise JSONDecodeError
  end.

(** ** PyMuPDF documents *)

Module fitz.

Local Open Scope Q_scope.

Record Rect : Type := mkRect { x0 : Q; y0 : Q; x1 : Q; y1 : Q }.

Definition width (r : Rect) : Q := x1 r - x0 r.
Definition height (r : Rect) : Q := y1 r - y0 r.
Definition is_empty (r : Rect) : bool :=
  Qle_bool (x1 r) (x0 r) || Qle_bool (y1 r) (y0 r).
Definition rect_contains (outer inner : Rect) : bool :=
  Qle_bool (x0 outer) (x0 inner) && Qle_bool (y0 outer) (y0 inner) &&
  Qle_bool (x1 inner) (x1 outer) && Qle_bool (y1 inner) (y1 outer).

(** Annotations keep the coordinates they were created with: a markup
    (highlight, link, note) over a rectangle, or a file attachment pinned
    at a point. *)
Inductive Annot : Type :=
| Markup (kind : string) (area : Rect) (info : str)
| FileAttachment (x y : Q) (filename : str) (title content : str).

(** What a page paints: its own content streams, and pages of other
    documents shown inside a target rectangle by [show_pdf_page]. *)
Inductive Drawing : Type :=
| Stream (id : N)
| Shown (target : Rect) (source : list Drawing).

Record Page : Type := mkPage {
  mediabox : Rect;
  cropbox : Rect;
  trimbox : Rect;
  bleedbox : Rect;
  contents : list Drawing;
  annots : list Annot
}.

(** [page.rect]: the visible page, moved to the origin. *)
Definition rect (p : Page) : Rect :=
  mkRect 0 0 (width (cropbox p)) (height (cropbox p)).

Inductive Box : Type := MediaBox | CropBox | TrimBox | BleedBox.

Definition box (b : Box) (p : Page) : Rect :=
  match b with
  | MediaBox => mediabox p
  | CropBox => cropbox p
  | TrimBox => trimbox p
  | BleedBox => bleedbox p
  end.

(** [page.set_mediabox(r)], [page.set_cropbox(r)], ...: an empty rectangle
    is refused, and so is a crop, trim or bleed box that leaves the media
    box. *)
Definition set_box (b : Box) (r : Rect) (p : Page) : res Page :=
  if is_empty r then Raise ValueError
  else match b with
       | MediaBox =>
           Ok (mkPage r (cropbox p) (trimbox p) (bleedbox p) (contents p) (annots p))
       | CropBox =>
           if rect_contains (mediabox p) r
           then Ok (mkPage (mediabox p) r (trimbox p) (bleedbox p) (contents p) (annots p))
           else Raise ValueError
       | TrimBox =>
           if rect_contains (mediabox p) r
           then Ok (mkPage (mediabox p) (cropbox p) r (bleedbox p) (contents p) (annots p))
           else Raise ValueError
       | BleedBox =>
           if rect_contains (mediabox p) r
           then Ok (mkPage (mediabox p) (cropbox p) (trimbox p) r (contents p) (annots p))
           else Raise ValueError
       end.

(** [page.show_pdf_page(target, src, pno)] *)
Definition show_pdf_page (target : Rect) (src : list Page) (pno : nat)
    (p : Page) : res Page :=
  if is_empty target then Raise ValueError
  else match src !! pno with
       | None => Raise ValueError
       | Some sp =>
           Ok (mkPage (mediabox p) (cropbox p) (trimbox p) (bleedbox p)
                      (contents p ++ [Shown target (contents sp)]) (annots p))
       end.

(** [page.add_file_annot(point, data, filename, ...)] followed by
    [annot.set_info(title=..., content=...)]. *)
Definition add_file_annot (x y : Q) (filename title content : str) (p : Page) : Page :=
  mkPage (mediabox p) (cropbox p) (trimbox p) (bleedbox p) (contents p)
         (annots p ++ [FileAttachment x y filename title content]).

(** A document: its pages and its embedded files, in the order of
    [embfile_names()]. *)
Record Document : Type := mkDocument {
  pages : list Page;
  embfiles : list (str * bytes);
  (** [doc.is_encrypted and not doc.authenticate("")] *)
  needs_password : bool
}.

Definition page_count (d : Document) : nat := length (pages d).
Definition embfile_names (d : Document) : list str := (embfiles d).*1.

(** [name in names] *)
Definition str_in (n : str) (names : list str) : bool :=
  existsb (str_eqb n) names.

(** [doc.embfile_get(name)] *)
Definition embfile_get (d : Document) (n : str) : res bytes :=
  match List.find (fun e => str_eqb (fst e) n) (embfiles d) with
  | Some e => Ok (snd e)
  | None => Raise ValueError
  end.

(** [doc.embfile_add(name, data)]: a name already present is refused. *)
Definition embfile_add (d : Document) (n : str) (data : bytes) : res Document :=
  if str_in n (embfile_names d) then Raise ValueError
  else Ok (mkDocument (pages d) (embfiles d ++ [(n, data)]) (needs_password d)).

End fitz.

(** ** The file system and the other collaborators *)

Record File : Type := mkFile {
  st_size : Z;
  (** what [fitz.open] returns for the file *)
  fitz_open : res fitz.Document;
  (** [len(PdfReader(f).pages)] *)
  pypdf2_pages : res nat;
  (** whether [doc.saveIncr()] goes through *)
  incremental : bool
}.

(** [result["counts"]] and [result["total_pages"]] of the language
    labelling. *)
Record VlmResult : Type := mkVlm { count_zh : nat; count_non_zh : nat; total_pages : nat }.

Record World : Type := mkWorld {
  files : gmap str File;
  (** [_HAS_VLM_DETECT]: whether the labelling module could be imported *)
  HAS_VLM_DETECT : bool;
  detect_pdf_language_via_vlm : str -> res VlmResult;
  (** [str(e)] and [str(v)] as the interpreter renders them *)
  exn_str : exn -> str;
  json_str : json -> str;
  (** the size in bytes of a document written out by [doc.save] *)
  encoded_size : fitz.Document -> Z
}.

Definition with_files (w : World) (fs : gmap str File) : World :=
  mkWorld fs (HAS_VLM_DETECT w) (detect_pdf_language_via_vlm w)
          (exn_str w) (json_str w) (encoded_size w).

Definition open_document (w : World) (path : str) : res fitz.Document :=
  match files w !! path with
  | Some f => fitz_open f
  | None => Raise FileNotFoundError
  end.

(** [path.exists()] *)
Definition path_exists (w : World) (p : Path) : bool :=
  bool_decide (is_Some (files w !! path_str p)).

(** [path.stat().st_size] *)
Definition stat_size (w : World) (p : Path) : res Z :=
  match files w !! path_str p with
  | Some f => Ok (st_size f)
  | None => Raise FileNotFoundError
  end.

(** [doc.saveIncr()] on the document opened from [path]. *)
Definition saveIncr (w : World) (path : str) (d : fitz.Document) : res World :=
  match files w !! path with
  | Some f =>
      if incremental f
      then Ok (with_files w
                 (<[path := mkFile (encoded_size w d) (Ok d) (pypdf2_pages f) true]>
                    (files w)))
      else Raise FitzError
  | None => Raise FileNotFoundError
  end.

(** ** configs/config.json *)

Record Config : Type := mkConfig {
  SKIP_TRANSLATED_BY_METADATA : bool;
  SKIP_MAX_FILE_SIZE : bool;
  SKIP_MAX_PAGES : bool;
  SKIP_FILENAME_FORMAT_CHECK : bool;
  SKIP_FILENAME_CONTAINS_CHINESE : bool;
  SKIP_CONTAINS_SKIP_KEYWORDS : bool;
  SKIP_CHINESE_PDF_VLM : bool;
  MAX_SIZE_BYTES : Z;
  MAX_PAGES : Z;
  GAP : Q;
  TRANSLATION_SERVICE : str;
  SILICONFLOW_MODEL : str
}.

(** Whether the destination is held open by another process at the n-th
    call of [os.replace], and at the n-th call of [Path.unlink]. *)
Record Sched : Type := mkSched { replace_locked : nat -> bool; unlink_locked : nat -> bool }.

(** The state the file operations run in: the files, how many calls of
    [os.replace] and of [unlink] were made, and the delays slept so far. *)
Record OS : Type := mkOS {
  world : World;
  replace_calls : nat;
  unlink_calls : nat;
  sleeps : list Q
}.

(** The failure ledger on disk: its text when the file exists, and
    whether it can be opened for writing. *)
Record Ledger : Type := mkLedger { ledger_text : option str; ledger_writable : bool }.

(** One entry of a page-size array: [{"w": ..., "h": ...}]. *)
Record PageSize : Type := mkPageSize { size_w : Q; size_h : Q }.

(** ** src/pdf_batch_translator.py *)

(** The twelve skip rules, named by the reason they return. *)
Inductive Rule : Type :=
| too_many_failures
| is_backup_original
| is_generated_output
| already_translated_by_metadata
| contains_exclusion_keywords_
| backup_exists
| filename_contains_chinese
| bad_name_pattern
| page_count_failed
| pages_gt_N
| size_gt_N
| chinese_pdf_vlm.

#[global] Instance Rule_eq_dec : EqDecision Rule.
Proof. solve_decision. Defined.

(** An evaluation of the skip rules: the rules whose condition was
    evaluated, in order, and what the evaluator returned. *)
Definition Eval : Type := list Rule * res (bool * str).

(** [if cond: return True, reason] followed by [rest]. *)
Definition rule (r : Rule) (cond : res bool) (reason : str) (rest : Eval) : Eval :=
  match cond with
  | Ok true => ([r], Ok (true, reason))
  | Ok false => (r :: fst rest, snd rest)
  | Raise e => ([r], Raise e)
  end.

(** [if SWITCH and cond: return True, reason] followed by [rest]: with the
    switch off the condition is not evaluated. *)
Definition gated (switch : bool) (r : Rule) (cond : res bool) (reason : str)
    (rest : Eval) : Eval :=
  if switch then rule r cond reason rest else rest.

(** A statement that may raise before the next rule. *)
Definition then_ {A} (m : res A) (k : A -> Eval) : Eval :=
  match m with
  | Ok a => k a
  | Raise e => ([], Raise e)
  end.

Module pdf_batch_translator.

(** The names bound at module level, in the order of the file. *)
Definition module_globals : list string :=
  ["os"; "re"; "csv"; "time"; "shutil"; "subprocess"; "tempfile"; "json";
   "uuid"; "datetime"; "timezone"; "Path"; "Tuple"; "Optional"; "List";
   "Dict"; "Any"; "dataclass"; "sys"; "detect_pdf_language_via_vlm";
   "_HAS_VLM_DETECT"; "load_configuration"; "CONFIG"; "get_config_value";
   "SKIP_TRANSLATED_BY_METADATA"; "SKIP_MAX_FILE_SIZE"; "SKIP_MAX_PAGES";
   "SKIP_FILENAME_FORMAT_CHECK"; "SKIP_FILENAME_CONTAINS_CHINESE";
   "SKIP_CONTAINS_SKIP_KEYWORDS"; "SKIP_CHINESE_PDF_VLM"; "DELETE_MONO_PDF";
   "DELETE_ALL_EXCEPT_FINAL"; "SUPPRESS_SKIPPED_OUTPUT"; "PDF_ROOT";
   "PDF2ZH_EXE"; "LOG_DIR"; "LANG_IN"; "LANG_OUT"; "TRANSLATION_SERVICE";
   "SILICONFLOW_API_KEY"; "SILICONFLOW_MODEL"; "SILICONFLOW_BASE";
   "QPS_LIMIT"; "GAP"; "MAX_SIZE_BYTES"; "MAX_PAGES"; "MAX_TIME";
   "VLM_API_KEY"; "VLM_MODEL"; "VLM_BASE"; "VLM_K_PAGES"; "VLM_DPI";
   "VLM_DETAIL"; "VLM_PER_PAGE_TIMEOUT"; "LOG_PATH"; "CJK_PATTERN";
   "contains_chinese_characters"; "load_exclusion_keywords";
   "contains_exclusion_keywords"; "check_translation_metadata_status";
   "detect_chinese_content_via_vlm"; "should_exclude_from_processing";
   "is_normalized_name"; "ensure_csv_header"; "log_row"; "get_page_count";
   "FAIL_LOG_PATH"; "read_failure_counts"; "increment_and_write_failure";
   "_apply_service_flags"; "_build_cmd_base"; "execute_pdf2zh_translation";
   "cleanup_new_csvs"; "fitz"; "_set_all_page_boxes";
   "extract_page_dimensions"; "create_translation_metadata";
   "embed_minimal_metadata"; "embed_original_file_attachment";
   "_atomic_replace_with_retry"; "_retry_unlink";
   "merge_pdfs_preserve_annotations"; "get_expected_mono_output_path";
   "find_most_recent_matching_file"; "main"]%string.

(** Reading a name that the function does not assign: it is looked up
    among the module's globals, and [NameError] is raised when it is not
    there (no builtin has any of the names looked up below). *)
Definition load_global {A} (globals : list string) (value : string -> A)
    (x : string) : res A :=
  if existsb (String.eqb x) globals then Ok (value x) else Raise (NameError x).

Section WithEnvironment.
Context {U : Unicode} (cfg : Config).

(** [CJK_PATTERN]: the class of U+3400..U+4DBF, U+4E00..U+9FFF and U+F900..U+FAFF *)
Definition CJK_PATTERN (c : char) : bool :=
  ((0x3400 <=? c) && (c <=? 0x4dbf)) ||
  ((0x4e00 <=? c) && (c <=? 0x9fff)) ||
  ((0xf900 <=? c) && (c <=? 0xfaff)).

Definition contains_chinese_characters (text : str) : bool :=
  existsb CJK_PATTERN text.

Definition contains_exclusion_keywords (filename : str) (keywords : list str) : bool :=
  match keywords with
  | [] => false
  | _ =>
      let filename_lower := lower filename in
      existsb (fun keyword => contains filename_lower keyword) keywords
  end.

Definition meta_name : str := lit "pdf2zh.meta.json".

Definition check_translation_metadata_status (w : World) (pdf_path : Path)
    : bool * str :=
  let body : res (bool * str) :=
    doc ← open_document w (path_str pdf_path);
    let embfiles := fitz.embfile_names doc in
    if negb (fitz.str_in meta_name embfiles) then Ok (false, lit "no_metadata_found")
    else
      meta_content ← fitz.embfile_get doc meta_name;
      match meta_content with
      | BEmpty => Ok (false, lit "metadata_empty")
      | _ =>
          match json_loads_decode meta_content with
          | Raise e => Ok (false, lit "metadata_parse_error:" ++ exn_str w e)
          | Ok metadata =>
              status ← json_get metadata (lit "pdf2zh.status") (JStr []);
              if json_is_str status (lit "translated")
              then Ok (true, lit "already_translated")
              else if json_is_str status (lit "untranslated")
              then Ok (false, lit "marked_untranslated")
              else Ok (false, lit "unknown_status:" ++
                              match status with
                              | JStr s => s
                              | v => json_str w v
                              end)
          end
      end in
  match body with
  | Ok r => r
  | Raise e => (false, lit "metadata_check_failed:" ++ exn_str w e)
  end.

Definition detect_chinese_content_via_vlm (w : World) (pdf_path : Path)
    : bool * str :=
  if negb (HAS_VLM_DETECT w) then (false, lit "vlm_module_not_available")
  else if negb (SKIP_CHINESE_PDF_VLM cfg) then (false, lit "vlm_detection_disabled")
  else
    match detect_pdf_language_via_vlm w (path_str pdf_path) with
    | Ok result =>
        let chinese_count := count_zh result in
        let non_chinese_count := count_non_zh result in
        let is_chinese := (non_chinese_count <=? chinese_count)%nat in
        (is_chinese,
         lit "vlm_detected: zh=" ++ str_of_nat chinese_count ++
         lit ", non_zh=" ++ str_of_nat non_chinese_count ++
         lit ", total=" ++ str_of_nat (total_pages result))
    | Raise e => (false, lit "vlm_detection_failed: " ++ exn_str w e)
    end.

Definition is_normalized_name (stem : str) : res bool :=
  if contains_chinese_characters stem then Ok false
  else
    let parts := split 45 stem in
    if (length parts <? 3)%nat then Ok false
    else
      let author := nth 0 parts [] in
      let year := nth 1 parts [] in
      let title_rest := join (lit "-") (drop 2 parts) in
      year_ok ← (if str_isdigit year
                 then y ← int year;
                      Ok ((1900 <=? y)%nat && (y <=? 2099)%nat && (length year =? 4)%nat)
                 else Ok false);
      if negb year_ok then Ok false
      else if existsb isdigit author then Ok false
      else if negb (existsb isalpha author) then Ok false
      else if negb (existsb isalpha title_rest) then Ok false
      else Ok true.

Definition get_page_count (w : World) (pdf_path : Path) : option nat :=
  match open_document w (path_str pdf_path) with
  | Ok doc => Some (fitz.page_count doc)
  | Raise _ =>
      match files w !! path_str pdf_path with
      | Some f =>
          match pypdf2_pages f with
          | Ok n => Some n
          | Raise _ => None
          end
      | None => None
      end
  end.

Definition should_exclude_from_processing (w : World) (pdf_path : Path)
    (exclusion_keywords : list str) (failure_counts : gmap str nat) : Eval :=
  let stem := pathlib.stem pdf_path in
  then_ (stat_size w pdf_path) (fun size =>
  rule too_many_failures
    (Ok (3 <=? default 0 (failure_counts !! path_str pdf_path))%nat)
    (lit "too_many_failures") (
  then_ (with_name pdf_path (stem ++ lit "_original.pdf")) (fun backup_path =>
  let lower_name := lower (name pdf_path) in
  rule is_backup_original
    (Ok (endswith lower_name (lit "_original.pdf")))
    (lit "is_backup_original") (
  rule is_generated_output
    (Ok (endswith lower_name (lit ".mono.pdf") || endswith lower_name (lit ".dual.pdf")))
    (lit "is_generated_output") (
  let '(is_translated, metadata_info) := check_translation_metadata_status w pdf_path in
  gated (SKIP_TRANSLATED_BY_METADATA cfg) already_translated_by_metadata
    (Ok is_translated)
    (lit "already_translated_by_metadata:" ++ metadata_info) (
  gated (SKIP_CONTAINS_SKIP_KEYWORDS cfg) contains_exclusion_keywords_
    (Ok (contains_exclusion_keywords (name pdf_path) exclusion_keywords))
    (lit "contains_exclusion_keywords") (
  rule backup_exists
    (Ok (path_exists w backup_path))
    (lit "backup_exists") (
  gated (SKIP_FILENAME_CONTAINS_CHINESE cfg) filename_contains_chinese
    (Ok (contains_chinese_characters (name pdf_path)))
    (lit "filename_contains_chinese") (
  gated (SKIP_FILENAME_FORMAT_CHECK cfg) bad_name_pattern
    (negb <$> is_normalized_name stem)
    (lit "bad_name_pattern") (
  let pages := get_page_count w pdf_path in
  rule page_count_failed
    (Ok (bool_decide (pages = None)))
    (lit "page_count_failed") (
  gated (SKIP_MAX_PAGES cfg) pages_gt_N
    (Ok (MAX_PAGES cfg <? Z.of_nat (default 0%nat pages))%Z)
    (lit "pages_gt_" ++ str_of_Z (MAX_PAGES cfg)) (
  gated (SKIP_MAX_FILE_SIZE cfg) size_gt_N
    (Ok (MAX_SIZE_BYTES cfg <=? size)%Z)
    (lit "size_gt_" ++ str_of_Z (MAX_SIZE_BYTES cfg)) (
  let '(is_chinese, detection_result) := detect_chinese_content_via_vlm w pdf_path in
  gated (SKIP_CHINESE_PDF_VLM cfg) chinese_pdf_vlm
    (Ok is_chinese)
    (lit "chinese_pdf_vlm:" ++ detection_result) (
  ([], Ok (false, [])))))))))))))))).

(** *** The failure ledger *)

(** Text mode reading: [\r\n] and [\r] arrive as [\n]. *)
Fixpoint universal_newlines (s : str) : str :=
  match s with
  | [] => []
  | c :: s' =>
      if c =? 13
      then 10 :: match s' with
                 | d :: s'' => if d =? 10 then universal_newlines s''
                               else universal_newlines s'
                 | [] => []
                 end
      else c :: universal_newlines s'
  end.

(** [for line in f]: the lines with their terminator. *)
Fixpoint readlines (s : str) : list str :=
  match s with
  | [] => []
  | c :: s' =>
      if c =? 10 then [10] :: readlines s'
      else match readlines s' with
           | [] => [[c]]
           | l :: ls => (c :: l) :: ls
           end
  end.

(** The loop of [read_failure_counts]; an exception ends it and keeps
    what was read so far. *)
Fixpoint read_lines (lines : list str) (counts : gmap str nat) : gmap str nat :=
  match lines with
  | [] => counts
  | line :: rest =>
      match rsplit1 44 (strip line) with
      | [pdf_path_str; count_str] =>
          if str_isdigit count_str
          then match int count_str with
               | Ok n => read_lines rest (<[pdf_path_str := n]> counts)
               | Raise _ => counts
               end
          else read_lines rest counts
      | _ => read_lines rest counts
      end
  end.

Definition read_failure_counts (path : Ledger) : gmap str nat :=
  match ledger_text path with
  | None => ∅
  | Some text => read_lines (readlines (universal_newlines text)) ∅
  end.

(** The order of [sorted(counts.items())]. *)
Definition item_leb (a b : str * nat) : bool :=
  if str_eqb a.1 b.1 then (a.2 <=? b.2)%nat else str_leb a.1 b.1.

Definition ledger_line (item : str * nat) : str :=
  item.1 ++ lit "," ++ str_of_nat item.2 ++ [10].

Definition increment_and_write_failure (pdf_path : Path) (counts : gmap str nat)
    (log_file : Ledger) : gmap str nat * Ledger :=
  let key := path_str pdf_path in
  let counts := <[key := (default 0 (counts !! key) + 1)%nat]> counts in
  (counts,
   if ledger_writable log_file
   then mkLedger
          (Some (concat (ledger_line <$>
                   sorted item_leb (map_to_list counts))))
          true
   else log_file).

(** *** Metadata *)

Definition sizes_json (sizes : list PageSize) : json :=
  JArr ((fun s => JObj [(lit "w", JNum (size_w s)); (lit "h", JNum (size_h s))]) <$> sizes).

Definition extract_page_dimensions {F : Float} (w : World) (pdf_path : Path)
    : list PageSize :=
  match open_document w (path_str pdf_path) with
  | Ok doc =>
      (fun page => mkPageSize (round2 (fitz.width (fitz.rect page)))
                              (round2 (fitz.height (fitz.rect page))))
        <$> fitz.pages doc
  | Raise _ => []
  end.

(** [now] is [datetime.now(timezone.utc).isoformat().replace("+00:00", "Z")]. *)
Definition create_translation_metadata (now : str) (status : str)
    (source_sizes : list PageSize) (result_sizes : list PageSize) (gap_pt : Q)
    : json :=
  let metadata := [(lit "pdf2zh.status", JStr status);
                   (lit "pdf2zh.run_time_utc", JStr now)] in
  if str_eqb status (lit "translated")
  then
    let metadata :=
      if str_eqb (TRANSLATION_SERVICE cfg) (lit "siliconflow_free")
      then metadata ++ [(lit "pdf2zh.model", JStr (lit "Qwen/Qwen2.5-7B-Instruct"))]
      else if str_eqb (TRANSLATION_SERVICE cfg) (lit "siliconflow_pro")
      then metadata ++ [(lit "pdf2zh.model", JStr (SILICONFLOW_MODEL cfg))]
      else metadata in
    let metadata := metadata ++ [(lit "pdf2zh.source_page_sizes_pt", sizes_json source_sizes);
                                 (lit "pdf2zh.gap_pt", JNum gap_pt)] in
    JObj (match result_sizes with
          | [] => metadata
          | _ => metadata ++ [(lit "pdf2zh.result_page_sizes_pt", sizes_json result_sizes)]
          end)
  else JObj metadata.

Definition embed_minimal_metadata (now : str) (w : World) (pdf_path : Path)
    : (bool * str) * World :=
  let metadata := create_translation_metadata now (lit "untranslated") [] [] 0 in
  let body : res World :=
    doc ← open_document w (path_str pdf_path);
    doc ← fitz.embfile_add doc meta_name (json_dumps_encode metadata);
    saveIncr w (path_str pdf_path) doc in
  match body with
  | Ok w' => ((true, []), w')
  | Raise e => ((false, exn_str w e), w)
  end.

Definition embed_original_file_attachment (w : World) (pdf_path original_pdf : Path)
    (metadata : json) : (bool * str) * World :=
  let body : res World :=
    doc ← open_document w (path_str pdf_path);
    doc ← fitz.embfile_add doc meta_name (json_dumps_encode metadata);
    doc ← match fitz.pages doc with
          | page :: others =>
              let margin := 8%Q in
              let original_name := name original_pdf in
              match files w !! path_str original_pdf with
              | None => Raise FileNotFoundError
              | Some _ =>
                  Ok (fitz.mkDocument
                        (fitz.add_file_annot margin margin original_name
                           ([0x539F; 0x59CB] ++ lit "PDF")
                           ([0x6253; 0x5F00; 0x539F; 0x7A3F; 0xFF08] ++
                            original_name ++ [0xFF09])
                           page :: others)
                        (fitz.embfiles doc) (fitz.needs_password doc))
              end
          | [] => Ok doc
          end;
    saveIncr w (path_str pdf_path) doc in
  match body with
  | Ok w' => ((true, []), w')
  | Raise e => ((false, exn_str w e), w)
  end.

(** *** Replacing and deleting files that may be held open *)

Definition os_replace (sched : Sched) (src dst : str) (st : OS) : res unit * OS :=
  let n := replace_calls st in
  if replace_locked sched n
  then (Raise PermissionError, mkOS (world st) (S n) (unlink_calls st) (sleeps st))
  else match files (world st) !! src with
       | None => (Raise FileNotFoundError,
                  mkOS (world st) (S n) (unlink_calls st) (sleeps st))
       | Some f => (Ok tt,
                    mkOS (with_files (world st) (<[dst := f]> (delete src (files (world st)))))
                         (S n) (unlink_calls st) (sleeps st))
       end.

Definition time_sleep (delay : Q) (st : OS) : OS :=
  mkOS (world st) (replace_calls st) (unlink_calls st) (sleeps st ++ [delay]).

(** The loop [for attempt in range(max_retries)], entered at [attempt]
    with [remaining] rounds to go. *)
Fixpoint replace_attempts (sched : Sched) (src dst : Path) (max_retries : nat)
    (initial_delay : Q) (remaining attempt : nat) (st : OS) : res bool * OS :=
  match remaining with
  | O => (Ok false, st)
  | S remaining' =>
      match os_replace sched (path_str src) (path_str dst) st with
      | (Ok _, st') => (Ok true, st')
      | (Raise PermissionError, st') =>
          if (attempt =? max_retries - 1)%nat then (Ok false, st')
          else
            let delay := (initial_delay * inject_Z (2 ^ Z.of_nat attempt))%Q in
            replace_attempts sched src dst max_retries initial_delay remaining'
                             (S attempt) (time_sleep delay st')
      | (Raise e, st') => (Raise e, st')
      end
  end.

Definition _atomic_replace_with_retry (sched : Sched) (src dst : Path)
    (max_retries : nat) (initial_delay : Q) (st : OS) : res bool * OS :=
  replace_attempts sched src dst max_retries initial_delay max_retries 0%nat st.

Definition path_unlink (sched : Sched) (p : str) (st : OS) : res unit * OS :=
  let n := unlink_calls st in
  if unlink_locked sched n
  then (Raise PermissionError, mkOS (world st) (replace_calls st) (S n) (sleeps st))
  else match files (world st) !! p with
       | None => (Raise FileNotFoundError,
                  mkOS (world st) (replace_calls st) (S n) (sleeps st))
       | Some _ => (Ok tt,
                    mkOS (with_files (world st) (delete p (files (world st))))
                         (replace_calls st) (S n) (sleeps st))
       end.

(** [except (PermissionError, OSError)] takes every error of [unlink]. *)
Fixpoint unlink_attempts (sched : Sched) (path : Path) (max_retries : nat)
    (initial_delay : Q) (remaining attempt : nat) (st : OS) : bool * OS :=
  match remaining with
  | O => (false, st)
  | S remaining' =>
      match path_unlink sched (path_str path) st with
      | (Ok _, st') => (true, st')
      | (Raise _, st') =>
          if (attempt =? max_retries - 1)%nat then (false, st')
          else
            let delay := (initial_delay * inject_Z (2 ^ Z.of_nat attempt))%Q in
            unlink_attempts sched path max_retries initial_delay remaining'
                            (S attempt) (time_sleep delay st')
      end
  end.

Definition _retry_unlink (sched : Sched) (path : Path) (max_retries : nat)
    (initial_delay : Q) (st : OS) : bool * OS :=
  unlink_attempts sched path max_retries initial_delay max_retries 0%nat st.

(** *** Side-by-side merge *)

(** Every setter is tried; one that raises leaves its box as it was. *)
Definition _set_all_page_boxes (page : fitz.Page) (rect : fitz.Rect) : fitz.Page :=
  foldl (fun page setter =>
           match fitz.set_box setter rect page with
           | Ok page' => page'
           | Raise _ => page
           end)
        page [fitz.MediaBox; fitz.CropBox; fitz.TrimBox; fitz.BleedBox].

(** The body of [for i in range(total)] on page [i] of the copy. *)
Definition merge_page (right_doc : fitz.Document) (gap : Q) (i : nat)
    (page : fitz.Page) : res fitz.Page :=
  let lw := fitz.width (fitz.rect page) in
  let lh := fitz.height (fitz.rect page) in
  let new_w := (2 * lw + gap)%Q in
  let new_rect := fitz.mkRect 0 0 new_w lh in
  let page := _set_all_page_boxes page new_rect in
  let right_target := fitz.mkRect (lw + gap)%Q 0 (2 * lw + gap)%Q lh in
  fitz.show_pdf_page right_target (fitz.pages right_doc) i page.

Fixpoint merge_pages (right_doc : fitz.Document) (gap : Q) (i : nat)
    (out : list fitz.Page) : res (list fitz.Page) :=
  match out with
  | [] => Ok []
  | page :: rest =>
      page' ← merge_page right_doc gap i page;
      rest' ← merge_pages right_doc gap (S i) rest;
      Ok (page' :: rest')
  end.

(** [out.save(path, garbage=4, deflate=True)] *)
Definition save_document (w : World) (path : str) (doc : fitz.Document) : World :=
  with_files w (<[path := mkFile (encoded_size w doc) (Ok doc)
                                  (Ok (fitz.page_count doc)) true]> (files w)).

(** [global_value x] is what the module-level name [x] holds when it is
    bound; [temp_uuid] is [uuid.uuid4().hex[:8]].  The handles are closed
    in the [finally] block on every path, which leaves no trace in the
    state. *)
Definition merge_pdfs_preserve_annotations (sched : Sched)
    (global_value : string -> Path) (temp_uuid : str)
    (pdf_left pdf_right output_path : Path) (gap : Q) (st : OS) : res unit * OS :=
  match open_document (world st) (path_str pdf_left) with
  | Raise e => (Raise e, st)
  | Ok left_doc =>
  match open_document (world st) (path_str pdf_right) with
  | Raise e => (Raise e, st)
  | Ok right_doc =>
    let body : res (Path * Path * OS) :=
      if negb (fitz.page_count left_doc =? fitz.page_count right_doc)%nat
      then Raise ValueError
      else
        let out := fitz.mkDocument (fitz.pages left_doc) [] false in
        pages' ← merge_pages right_doc gap 0 (fitz.pages out);
        let out := fitz.mkDocument pages' (fitz.embfiles out) (fitz.needs_password out) in
        overwrite_path ← load_global module_globals global_value "overwrite_path";
        let tmp_path :=
          mkPath (parent overwrite_path)
                 (stem overwrite_path ++ lit "_tmp_" ++ temp_uuid ++ lit ".pdf") in
        Ok (tmp_path, overwrite_path,
            mkOS (save_document (world st) (path_str tmp_path) out)
                 (replace_calls st) (unlink_calls st) (sleeps st)) in
    match body with
    | Raise e => (Raise e, st)
    | Ok (tmp_path, overwrite_path, st) =>
        let after_replace : res unit * OS :=
          match _atomic_replace_with_retry sched tmp_path overwrite_path 10 (1 # 10) st with
          | (Raise e, st) => (Raise e, st)
          | (Ok true, st) => (Ok tt, st)
          | (Ok false, st) =>
              let sidecar_path :=
                mkPath (parent overwrite_path)
                       (stem overwrite_path ++ lit ".pdf2zh-merged.pdf") in
              match _atomic_replace_with_retry sched tmp_path sidecar_path 10 (1 # 10) st with
              | (Raise e, st) => (Raise e, st)
              | (Ok _, st) => (Ok tt, st)
              end
          end in
        match after_replace with
        | (Raise e, st) => (Raise e, st)
        | (Ok _, st) =>
            if path_exists (world st) tmp_path
            then (Ok tt, snd (_retry_unlink sched tmp_path 5 (1 # 20) st))
            else (Ok tt, st)
        end
    end
  end end.

End WithEnvironment.
End pdf_batch_translator.

(** ** utils/concatePDF.py *)

Module concatePDF.

Definition module_globals : list string :=
  ["os"; "re"; "tempfile"; "urlparse"; "fitz"; "requests"; "tqdm";
   "LEFT_PDF"; "RIGHT_PDF"; "OUTPUT_DIR"; "OUTPUT_SUFFIX"; "GAP"; "is_url";
   "download_to_temp"; "open_pdf"; "sanitize_filename";
   "left_based_output_name"; "_set_all_page_boxes";
   "merge_preserve_left_annotations"]%string.

(** [open_pdf] for a local path (downloading from a URL is left out); the
    second component of its result, the temporary file, is then [None]. *)
Definition open_pdf (w : World) (maybe_url_or_path : str) : res fitz.Document :=
  doc ← open_document w maybe_url_or_path;
  if fitz.needs_password doc then Raise ValueError else Ok doc.

(** The same text as in [pdf_batch_translator]. *)
Definition _set_all_page_boxes (page : fitz.Page) (rect : fitz.Rect) : fitz.Page :=
  foldl (fun page setter =>
           match fitz.set_box setter rect page with
           | Ok page' => page'
           | Raise _ => page
           end)
        page [fitz.MediaBox; fitz.CropBox; fitz.TrimBox; fitz.BleedBox].

Definition merge_page (right_doc : fitz.Document) (gap : Q) (i : nat)
    (page : fitz.Page) : res fitz.Page :=
  let lw := fitz.width (fitz.rect page) in
  let lh := fitz.height (fitz.rect page) in
  let new_w := (2 * lw + gap)%Q in
  let new_rect := fitz.mkRect 0 0 new_w lh in
  let page := _set_all_page_boxes page new_rect in
  let right_target := fitz.mkRect (lw + gap)%Q 0 (2 * lw + gap)%Q lh in
  fitz.show_pdf_page right_target (fitz.pages right_doc) i page.

Fixpoint merge_pages (right_doc : fitz.Document) (gap : Q) (i : nat)
    (out : list fitz.Page) : res (list fitz.Page) :=
  match out with
  | [] => Ok []
  | page :: rest =>
      page' ← merge_page right_doc gap i page;
      rest' ← merge_pages right_doc gap (S i) rest;
      Ok (page' :: rest')
  end.

(** The document built in memory, before it is saved. *)
Definition merged_document (left_doc right_doc : fitz.Document) (gap : Q)
    : res fitz.Document :=
  if negb (fitz.page_count left_doc =? fitz.page_count right_doc)%nat
  then Raise ValueError
  else
    let out := fitz.mkDocument (fitz.pages left_doc) [] false in
    pages' ← merge_pages right_doc gap 0 (fitz.pages out);
    Ok (fitz.mkDocument pages' (fitz.embfiles out) (fitz.needs_password out)).

Definition merge_preserve_left_annotations (w : World)
    (pdf_left pdf_right out_path : str) (gap : Q) : res World :=
  left_doc ← open_pdf w pdf_left;
  right_doc ← open_pdf w pdf_right;
  out ← merged_document left_doc right_doc gap;
  Ok (pdf_batch_translator.save_document w out_path out).

End concatePDF.

(** ** utils/pdf_splitter.py *)

Module pdf_splitter.

Definition module_globals : list string :=
  ["os"; "re"; "tempfile"; "urlparse"; "fitz"; "requests"; "tqdm";
   "MERGED_PDF"; "OUTPUT_DIR"; "OUTPUT_SUFFIX"; "is_valid_url";
   "download_url_to_temporary_file"; "open_pdf_document";
   "sanitize_filename_for_windows"; "generate_output_filename_from_source";
   "_set_all_page_boxes"; "extract_left_half_from_merged_pdf"]%string.

Definition open_pdf_document (w : World) (maybe_url_or_path : str) : res fitz.Document :=
  doc ← open_document w maybe_url_or_path;
  if fitz.needs_password doc then Raise ValueError else Ok doc.

Definition _set_all_page_boxes (page : fitz.Page) (rect : fitz.Rect) : fitz.Page :=
  foldl (fun page setter =>
           match fitz.set_box setter rect page with
           | Ok page' => page'
           | Raise _ => page
           end)
        page [fitz.MediaBox; fitz.CropBox; fitz.TrimBox; fitz.BleedBox].

(** The body of [for page in doc]. *)
Definition split_page (page : fitz.Page) : fitz.Page :=
  let current_rect := fitz.rect page in
  let new_width := (fitz.width current_rect / 2)%Q in
  let new_rect := fitz.mkRect 0 0 new_width (fitz.height current_rect) in
  _set_all_page_boxes page new_rect.

(** [global_value x] is the function that the module-level name [x]
    holds when it is bound. *)
Definition extract_left_half_from_merged_pdf
    (global_value : string -> World -> str -> res fitz.Document)
    (w : World) (merged_pdf out_path : str) : res World :=
  open_pdf ← pdf_batch_translator.load_global module_globals global_value "open_pdf";
  doc ← open_pdf w merged_pdf;
  let doc := fitz.mkDocument (split_page <$> fitz.pages doc)
                             (fitz.embfiles doc) (fitz.needs_password doc) in
  Ok (pdf_batch_translator.save_document w out_path doc).

End pdf_splitter.

(** ** utils/pdf_pair_metadata_manager.py *)

Module pdf_pair_metadata_manager.

Section WithFloat.
Context {F : Float}.

(** [statistics.median] *)
Definition median (data : list Q) : res Q :=
  let data := sorted Qle_bool data in
  let n := length data in
  if (n =? 0)%nat then Raise StatisticsError
  else if Nat.odd n then Ok (nth (n / 2) data 0%Q)
  else
    let i := (n / 2)%nat in
    Ok ((nth (i - 1) data 0 + nth i data 0) / 2)%Q.

(** [max(0.0, x)] *)
Definition max0 (x : Q) : Q := if Qle_bool x 0 then 0%Q else x.

(** The loop over [range(min(len(source_sizes), len(result_sizes)))]. *)
Fixpoint gaps_of (source_sizes result_sizes : list PageSize) : list Q :=
  match source_sizes, result_sizes with
  | s :: source_sizes', r :: result_sizes' =>
      let lw := size_w s in
      let rw := lw in
      let nw := size_w r in
      let cand := round2 (nw - (lw + rw))%Q in
      (if Qle_bool (- (1 # 2)) cand then [max0 (round2 cand)] else [])
      ++ gaps_of source_sizes' result_sizes'
  | _, _ => []
  end.

Definition infer_gap_pt (source_sizes result_sizes : list PageSize) : Q :=
  let gaps := gaps_of source_sizes result_sizes in
  match gaps with
  | [] => 0%Q
  | _ =>
      match median gaps with
      | Ok m => round2 m
      | Raise _ => round2 (fold_right Qplus 0 gaps / inject_Z (Z.of_nat (length gaps)))%Q
      end
  end.

End WithFloat.

(** [now] is [iso_utc_now()]. *)
Definition build_translated_meta (now : str) (source_sizes result_sizes : list PageSize)
    (model_name : str) (gap_pt : Q) : json :=
  JObj [(lit "pdf2zh",
         JObj [(lit "status", JStr (lit "translated"));
               (lit "run_time_utc", JStr now);
               (lit "model", JStr model_name);
               (lit "gap_pt", JNum gap_pt);
               (lit "source_page_sizes_pt", pdf_batch_translator.sizes_json source_sizes);
               (lit "result_page_sizes_pt", pdf_batch_translator.sizes_json result_sizes)])].

End pdf_pair_metadata_manager.

(** ** utils/pdf_orphan_metadata_manager.py *)

Module pdf_orphan_metadata_manager.

Definition DEFAULT_MODEL : str := lit "Qwen/Qwen2.5-7B-Instruct".

Definition create_metadata (now : str) (status : str) (model : str)
    (page_sizes : list PageSize) : json :=
  let inner := [(lit "status", JStr status);
                (lit "run_time_utc", JStr now);
                (lit "model", JStr model)] in
  JObj [(lit "pdf2zh",
         JObj (match page_sizes with
               | [] => inner
               | _ => inner ++ [(lit "page_sizes_pt", pdf_batch_translator.sizes_json page_sizes)]
               end))].

Definition embed_metadata_attachment (w : World) (pdf_path : Path) (metadata : json)
    : (bool * str) * World :=
  let body : res (str * World) :=
    doc ← open_document w (path_str pdf_path);
    if fitz.str_in pdf_batch_translator.meta_name (fitz.embfile_names doc)
    then Ok (lit "already_exists", w)
    else
      let payload := json_dumps_encode metadata in
      doc ← fitz.embfile_add doc pdf_batch_translator.meta_name payload;
      w' ← saveIncr w (path_str pdf_path) doc;
      Ok (lit "success", w') in
  match body with
  | Ok (msg, w') => ((true, msg), w')
  | Raise e => ((false, exn_str w e), w)
  end.

End pdf_orphan_metadata_manager.

(** ** The design document, in its own words *)

Module design.

(** *** The exclusion chain: an ordered list of (tag, predicate) pairs,
    evaluated with short-circuit on the first match *)

Record Entry : Type := mkEntry {
  entry_rule : Rule;
  entry_applies : res bool;
  entry_reason : str
}.

Fixpoint first_match (chain : list Entry) : Eval :=
  match chain with
  | [] => ([], Ok (false, []))
  | e :: rest =>
      match entry_applies e with
      | Ok true => ([entry_rule e], Ok (true, entry_reason e))
      | Ok false => (entry_rule e :: fst (first_match rest), snd (first_match rest))
      | Raise x => ([entry_rule e], Raise x)
      end
  end.

(** The fixed priority. *)
Definition priority : list Rule :=
  [too_many_failures; is_backup_original; is_generated_output;
   already_translated_by_metadata; contains_exclusion_keywords_; backup_exists;
   filename_contains_chinese; bad_name_pattern; page_count_failed; pages_gt_N;
   size_gt_N; chinese_pdf_vlm].

(** The tag of a rule; the reasons of four rules carry a value after it. *)
Definition tag (r : Rule) : str :=
  match r with
  | too_many_failures => lit "too_many_failures"
  | is_backup_original => lit "is_backup_original"
  | is_generated_output => lit "is_generated_output"
  | already_translated_by_metadata => lit "already_translated_by_metadata"
  | contains_exclusion_keywords_ => lit "contains_exclusion_keywords"
  | backup_exists => lit "backup_exists"
  | filename_contains_chinese => lit "filename_contains_chinese"
  | bad_name_pattern => lit "bad_name_pattern"
  | page_count_failed => lit "page_count_failed"
  | pages_gt_N => lit "pages_gt_"
  | size_gt_N => lit "size_gt_"
  | chinese_pdf_vlm => lit "chinese_pdf_vlm"
  end.

Section Chain.
Context {U : Unicode} (cfg : Config) (w : World).
Import pdf_batch_translator.

(** All skip switches of the configuration are on. *)
Definition all_switches_enabled : Prop :=
  SKIP_TRANSLATED_BY_METADATA cfg = true /\
  SKIP_CONTAINS_SKIP_KEYWORDS cfg = true /\
  SKIP_FILENAME_CONTAINS_CHINESE cfg = true /\
  SKIP_FILENAME_FORMAT_CHECK cfg = true /\
  SKIP_MAX_PAGES cfg = true /\
  SKIP_MAX_FILE_SIZE cfg = true /\
  SKIP_CHINESE_PDF_VLM cfg = true.

(** *** The name pattern Author-Year-Title *)

Definition valid_name (stem : str) : Prop :=
  (forall c, c ∈ stem -> CJK_PATTERN c = false) /\
  exists author year title_parts,
    split 45 stem = author :: year :: title_parts /\
    title_parts <> [] /\
    (forall c, c ∈ author -> isdigit c = false) /\
    (exists c, c ∈ author /\ isalpha c = true) /\
    length year = 4%nat /\
    (forall c, c ∈ year -> isdigit c = true) /\
    (exists y, int year = Ok y /\ (1900 <= y <= 2099)%nat) /\
    (exists c, c ∈ join (lit "-") title_parts /\ isalpha c = true).

(** *** The twelve rules, as the design words them *)

(** The field of the attachment that holds the status. *)
Definition status_key : str := lit "pdf2zh.status".

(** The document carries [status]: it can be opened, the attachment with
    the canonical name is a JSON object, and its status field is
    [status]. *)
Definition recorded_status (pdf_path : Path) (status : json) : Prop :=
  exists doc fields,
    open_document w (path_str pdf_path) = Ok doc /\
    fitz.embfile_get doc meta_name = Ok (BJson (JObj fields)) /\
    assoc_get status_key fields = Some status.

(** The page count of the document record: what the first PDF reader
    that can read the file reports; none when no reader can. *)
Definition page_count (pdf_path : Path) : option nat :=
  match files w !! path_str pdf_path with
  | None => None
  | Some f =>
      match fitz_open f, pypdf2_pages f with
      | Ok doc, _ => Some (length (fitz.pages doc))
      | Raise _, Ok n => Some n
      | Raise _, Raise _ => None
      end
  end.

(** The backup that sits beside a document. *)
Definition backup_of (pdf_path : Path) : Path :=
  mkPath (parent pdf_path) (stem pdf_path ++ lit "_original.pdf").

(** The labelling collaborator answers, and the pages it labels Chinese
    are not outnumbered. *)
Definition judged_chinese (pdf_path : Path) : Prop :=
  HAS_VLM_DETECT w = true /\
  exists result,
    detect_pdf_language_via_vlm w (path_str pdf_path) = Ok result /\
    (count_non_zh result <= count_zh result)%nat.

(** When a rule matches a document of [size] bytes.  Suffixes and keywords
    are compared without regard to case; "exceeds" is strict. *)
Definition spec_matches (pdf_path : Path) (exclusion_keywords : list str)
    (failure_counts : gmap str nat) (size : Z) (r : Rule) : Prop :=
  let file_name := lower (name pdf_path) in
  match r with
  | too_many_failures => (3 <= default 0 (failure_counts !! path_str pdf_path))%nat
  | is_backup_original => endswith file_name (lit "_original.pdf") = true
  | is_generated_output =>
      endswith file_name (lit ".mono.pdf") = true \/
      endswith file_name (lit ".dual.pdf") = true
  | already_translated_by_metadata =>
      recorded_status pdf_path (JStr (lit "translated"))
  | contains_exclusion_keywords_ =>
      exists keyword, keyword ∈ exclusion_keywords /\
                      contains file_name (lower keyword) = true
  | backup_exists => is_Some (files w !! path_str (backup_of pdf_path))
  | filename_contains_chinese => exists c, c ∈ name pdf_path /\ CJK_PATTERN c = true
  | bad_name_pattern => ~ valid_name (stem pdf_path)
  | page_count_failed => page_count pdf_path = None
  | pages_gt_N => exists n, page_count pdf_path = Some n /\ (MAX_PAGES cfg < Z.of_nat n)%Z
  | size_gt_N => (MAX_SIZE_BYTES cfg < size)%Z
  | chinese_pdf_vlm => judged_chinese pdf_path
  end.

(** Inputs on which the evaluator is compared with the rules above: the
    keywords are in lower case, the size is not exactly the maximum, and
    the digits of the stem are decimal digits. *)
Definition lower_case (keyword : str) : Prop := lower keyword = keyword.
Definition decimal_digits (s : str) : Prop :=
  forall c, c ∈ s -> isdigit c = true -> is_Some (decimal c).

End Chain.

(** Rule [r], the [k]-th of the priority, is the first that matches. *)
Definition first_matching (matches : Rule -> Prop) (k : nat) (r : Rule) : Prop :=
  priority !! k = Some r /\ matches r /\
  forall j r', (j < k)%nat -> priority !! j = Some r' -> ~ matches r'.

(** *** Side-by-side pages *)

(** The merged page: every boundary is (0,0)-(2 lw + gap, lh), the right
    page is shown in (lw + gap, 0)-(2 lw + gap, lh), and what the left page
    painted and carried as annotations is as it was. *)
Definition side_by_side (gap : Q) (left right : fitz.Page) : fitz.Page :=
  let lw := fitz.width (fitz.rect left) in
  let lh := fitz.height (fitz.rect left) in
  let whole := fitz.mkRect 0 0 (2 * lw + gap)%Q lh in
  fitz.mkPage whole whole whole whole
    (fitz.contents left ++
     [fitz.Shown (fitz.mkRect (lw + gap)%Q 0 (2 * lw + gap)%Q lh) (fitz.contents right)])
    (fitz.annots left).

(** A page of positive width and height. *)
Definition well_sized (page : fitz.Page) : Prop :=
  (0 < fitz.width (fitz.rect page))%Q /\ (0 < fitz.height (fitz.rect page))%Q.

(** The left half of a merged page: every boundary is
    (0,0)-(width / 2, height). *)
Definition left_half (merged : fitz.Page) : fitz.Page :=
  let half := fitz.mkRect 0 0 (fitz.width (fitz.rect merged) / 2)%Q
                          (fitz.height (fitz.rect merged)) in
  fitz.mkPage half half half half (fitz.contents merged) (fitz.annots merged).

(** *** Retry with exponential backoff *)

(** The delays slept before attempts [first + 1], ..., [first + n]: each
    is twice the one before. *)
Definition backoff (initial_delay : Q) (first n : nat) : list Q :=
  (fun attempt => (initial_delay * inject_Z (2 ^ Z.of_nat attempt))%Q) <$> seq first n.

(** *** The metadata attachment *)

(** How many embedded files of the document at [p] carry the canonical
    name. *)
Definition canonical_count (w : World) (p : Path) : nat :=
  match open_document w (path_str p) with
  | Ok doc =>
      length (List.filter (fun n => str_eqb n pdf_batch_translator.meta_name)
                          (fitz.embfile_names doc))
  | Raise _ => 0
  end.

(** *** Gap inference *)

Section Gap.
Context {F : Float}.

Definition residual (source result : PageSize) : Q :=
  (size_w result - 2 * size_w source)%Q.

(** The middle of a sorted list: the middle element, or the mean of the
    two middle elements. *)
Definition middle (l : list Q) : Q :=
  if Nat.odd (length l) then nth (length l / 2) l 0%Q
  else ((nth (length l / 2 - 1) l 0 + nth (length l / 2) l 0) / 2)%Q.

Definition mean (l : list Q) : Q :=
  (fold_right Qplus 0 l / inject_Z (Z.of_nat (length l)))%Q.

(** As first written: every page gives the candidate
    [max(0, result_width - 2 * source_width)]; the gap is the median of
    the candidates, the mean when there is no median. *)
Definition claimed_candidates (source_sizes result_sizes : list PageSize) : list Q :=
  (fun sr => Qmax 0 (residual sr.1 sr.2)) <$> zip source_sizes result_sizes.

Definition claimed_gap (source_sizes result_sizes : list PageSize) : Q :=
  let candidates := claimed_candidates source_sizes result_sizes in
  match candidates with
  | [] => mean candidates
  | _ => middle (sorted Qle_bool candidates)
  end.

(** As the code has it: a page whose rounded residual is below -0.5 gives
    no candidate, the other pages give their rounded residual, negative
    ones counted as zero; the gap is 0.0 without candidates and the
    rounded median otherwise. *)
Definition kept_candidates (source_sizes result_sizes : list PageSize) : list Q :=
  (fun sr => Qmax 0 (round2 (round2 (residual sr.1 sr.2)))) <$>
  List.filter (fun sr => Qle_bool (- (1 # 2)) (round2 (residual sr.1 sr.2)))
              (zip source_sizes result_sizes).

Definition amended_gap (source_sizes result_sizes : list PageSize) : Q :=
  let candidates := kept_candidates source_sizes result_sizes in
  match candidates with
  | [] => 0%Q
  | _ => round2 (middle (sorted Qle_bool candidates))
  end.

End Gap.

(** ** The failure ledger *)

Section Ledger.
Context {U : Unicode}.

(** A code point that UTF-8 encodes: a scalar value. *)
Definition utf8_encodable (c : char) : bool :=
  (c <? 0x110000) && negb ((0xD800 <=? c) && (c <=? 0xDFFF)).

(** A key that survives a line of the ledger: no line break inside it, no
    white space in front of it, and only code points that the encoding of
    the file takes. *)
Definition ledger_safe (key : str) : Prop :=
  (10 ∉ key) /\ (13 ∉ key) /\ lstrip key = key /\ forallb utf8_encodable key = true.

(** A run that fails once on [pdf_path]: the ledger is read at the start,
    the count of the path goes up by one and the ledger is written back. *)
Definition failed_run (pdf_path : Path) (log_file : Ledger) : Ledger :=
  (pdf_batch_translator.increment_and_write_failure pdf_path
     (pdf_batch_translator.read_failure_counts log_file) log_file).2.

End Ledger.

End design.

(** ** The evaluator of the skip rules, as a list *)

Module evaluator.
Import design pdf_batch_translator.

Section Tests.
Context {U : Unicode} (cfg : Config) (w : World).

(** The tests that [should_exclude_from_processing] makes, in the order
    it makes them, with the reason it returns at each: the body of the
    function read as a list, for a document of [size] bytes whose backup
    would be [backup_path]. *)
Definition tests (pdf_path : Path) (exclusion_keywords : list str)
    (failure_counts : gmap str nat) (size : Z) (backup_path : Path) : list Entry :=
  let lower_name := lower (name pdf_path) in
  let metadata := check_translation_metadata_status w pdf_path in
  let pages := get_page_count w pdf_path in
  let labelling := detect_chinese_content_via_vlm cfg w pdf_path in
  [ mkEntry too_many_failures
      (Ok (bool_decide (3 ≤ default 0 (failure_counts !! path_str pdf_path))%nat))
      (lit "too_many_failures");
    mkEntry is_backup_original
      (Ok (endswith lower_name (lit "_original.pdf")))
      (lit "is_backup_original");
    mkEntry is_generated_output
      (Ok (endswith lower_name (lit ".mono.pdf") || endswith lower_name (lit ".dual.pdf")))
      (lit "is_generated_output");
    mkEntry already_translated_by_metadata
      (Ok (fst metadata))
      (lit "already_translated_by_metadata:" ++ snd metadata);
    mkEntry contains_exclusion_keywords_
      (Ok (existsb (contains lower_name) exclusion_keywords))
      (lit "contains_exclusion_keywords");
    mkEntry backup_exists
      (Ok (path_exists w backup_path))
      (lit "backup_exists");
    mkEntry filename_contains_chinese
      (Ok (existsb CJK_PATTERN (name pdf_path)))
      (lit "filename_contains_chinese");
    mkEntry bad_name_pattern
      (negb <$> is_normalized_name (stem pdf_path))
      (lit "bad_name_pattern");
    mkEntry page_count_failed
      (Ok (bool_decide (pages = None)))
      (lit "page_count_failed");
    mkEntry pages_gt_N
      (Ok (bool_decide (MAX_PAGES cfg < Z.of_nat (default 0%nat pages))%Z))
      (lit "pages_gt_" ++ str_of_Z (MAX_PAGES cfg));
    mkEntry size_gt_N
      (Ok (bool_decide (MAX_SIZE_BYTES cfg ≤ size)%Z))
      (lit "size_gt_" ++ str_of_Z (MAX_SIZE_BYTES cfg));
    mkEntry chinese_pdf_vlm
      (Ok (fst labelling))
      (lit "chinese_pdf_vlm:" ++ snd labelling) ].

End Tests.

End evaluator.

(** ** Sample data *)

Module sample.

Definition cfg : Config :=
  mkConfig true true true true true true true 104857600 500 0
           (lit "siliconflow_free") (lit "Qwen/Qwen2.5-7B-Instruct").

Definition letter : fitz.Rect := fitz.mkRect 0 0 612 792.

Definition page (id : N) : fitz.Page :=
  fitz.mkPage letter letter letter letter [fitz.Stream id]
              [fitz.Markup "Highlight" (fitz.mkRect 72 72 300 90) (lit "note")].

Definition paper : fitz.Document := fitz.mkDocument [page 1; page 2] [] false.
Definition translation : fitz.Document := fitz.mkDocument [page 3; page 4] [] false.

Definition paper_path : Path := mkPath (lit "/library") (lit "Smith-2023-A Study of X.pdf").
Definition mono_path : Path :=
  mkPath (lit "/library") (lit "Smith-2023-A Study of X.no_watermark.zh-CN.mono.pdf").

Definition world : World :=
  mkWorld {[ path_str paper_path := mkFile 4096 (Ok paper) (Ok 2%nat) true;
             path_str mono_path := mkFile 4096 (Ok translation) (Ok 2%nat) true ]}
          true
          (fun _ => Ok (mkVlm 0 2 2))
          (fun _ => lit "error")
          (fun _ => lit "value")
          (fun _ => 4096%Z).


(** The same library; the labelling service fails. *)
Definition offline_world : World :=
  mkWorld (files world) true (fun _ => Raise OSError)
          (fun _ => lit "error") (fun _ => lit "value") (fun _ => 4096%Z).

Definition now : str := lit "2025-01-01T00:00:00Z".

(** The merged paper after the batch translator stamped it. *)
Definition translated_meta : json :=
  pdf_batch_translator.create_translation_metadata cfg now (lit "translated") [] [] 0.
Definition stamped_world : World :=
  snd (pdf_batch_translator.embed_original_file_attachment world paper_path mono_path
         translated_meta).

(** The merged paper after the pair tool stamped it. *)
Definition pair_stamped : fitz.Document :=
  fitz.mkDocument (fitz.pages paper)
    [(pdf_batch_translator.meta_name,
      json_dumps_encode
        (pdf_pair_metadata_manager.build_translated_meta now [] []
           (lit "Qwen/Qwen2.5-7B-Instruct") 0))]
    false.
Definition pair_stamped_world : World :=
  with_files world
    (<[path_str paper_path := mkFile 4096 (Ok pair_stamped) (Ok 2%nat) true]> (files world)).

(** The same library; the paper has exactly the greatest size allowed. *)
Definition full_size_world : World :=
  with_files world
    (<[path_str paper_path := mkFile 104857600 (Ok paper) (Ok 2%nat) true]> (files world)).

Definition three_failures : gmap str nat := {[ path_str paper_path := 3%nat ]}.

(** The destination stays locked; nothing else is. *)
Definition always_locked : Sched := mkSched (fun _ => true) (fun _ => false).
Definition never_locked : Sched := mkSched (fun _ => false) (fun _ => false).

Definition start : OS := mkOS world 0 0 [].

(** The destination is locked at the first two calls of [os.replace]. *)
Definition locked_twice : Sched := mkSched (fun n => (n <? 2)%nat) (fun _ => false).

End sample.

(** * Properties *)

(** ** Strings *)

Section StringFacts.
Context {U : Unicode}.

Lemma existsb_ext_on {A} (f g : A -> bool) (l : list A) :
  (forall x, In x l -> f x = g x) -> existsb f l = existsb g l.
Proof.
  induction l as [|x l IH]; intros H; [reflexivity|].
  simpl. rewrite (H x (or_introl eq_refl)), IH; [reflexivity|].
  intros y Hy. apply H. right; exact Hy.
Qed.

Lemma forallb_ext_on {A} (f g : A -> bool) (l : list A) :
  (forall x, In x l -> f x = g x) -> forallb f l = forallb g l.
Proof.
  induction l as [|x l IH]; intros H; [reflexivity|].
  simpl. rewrite (H x (or_introl eq_refl)), IH; [reflexivity|].
  intros y Hy. apply H. right; exact Hy.
Qed.

Lemma all_ascii_In (s : str) c : forallb is_ascii s = true -> In c s -> is_ascii c = true.
Proof. intros H Hc. rewrite forallb_forall in H. apply H, Hc. Qed.

Lemma existsb_isdigit_ascii s :
  forallb is_ascii s = true -> existsb isdigit s = existsb ascii_isdigit s.
Proof. intros H. apply existsb_ext_on. intros c Hc. apply isdigit_ascii, (all_ascii_In s c H Hc). Qed.

Lemma existsb_isalpha_ascii s :
  forallb is_ascii s = true -> existsb isalpha s = existsb ascii_isalpha s.
Proof. intros H. apply existsb_ext_on. intros c Hc. apply isalpha_ascii, (all_ascii_In s c H Hc). Qed.

Lemma str_isdigit_ascii s :
  forallb is_ascii s = true -> str_isdigit s = @str_isdigit ascii_only s.
Proof.
  intros H. unfold str_isdigit. f_equal.
  apply forallb_ext_on. intros c Hc. apply isdigit_ascii, (all_ascii_In s c H Hc).
Qed.

Lemma int_acc_ascii s acc :
  forallb is_ascii s = true -> int_acc acc s = @int_acc ascii_only acc s.
Proof.
  revert acc. induction s as [|c s IH]; intros acc H; [reflexivity|].
  simpl in H. apply andb_true_iff in H as [Hc Hs].
  simpl. rewrite (decimal_ascii c Hc). destruct (ascii_decimal c); [apply IH, Hs|reflexivity].
Qed.

Lemma int_ascii s : forallb is_ascii s = true -> int s = @int ascii_only s.
Proof. intros H. destruct s; [reflexivity|]. apply int_acc_ascii, H. Qed.

Lemma split_ascii sep s :
  forallb is_ascii s = true -> forallb (forallb is_ascii) (split sep s) = true.
Proof.
  induction s as [|c s IH]; intros H; [reflexivity|].
  simpl in H. apply andb_true_iff in H as [Hc Hs]. specialize (IH Hs).
  simpl. destruct (c =? sep).
  - simpl. exact IH.
  - destruct (split sep s) as [|p ps]; simpl in *.
    + rewrite Hc. reflexivity.
    + apply andb_true_iff in IH as [Hp Hps]. rewrite Hc, Hp, Hps. reflexivity.
Qed.

Lemma join_ascii sep parts :
  forallb is_ascii sep = true -> forallb (forallb is_ascii) parts = true ->
  forallb is_ascii (join sep parts) = true.
Proof.
  intros Hsep. induction parts as [|p ps IH]; intros H; [reflexivity|].
  simpl in H. apply andb_true_iff in H as [Hp Hps].
  destruct ps as [|q ps]; [exact Hp|].
  change (join sep (p :: q :: ps)) with (p ++ sep ++ join sep (q :: ps)).
  rewrite !forallb_app, Hp, Hsep, (IH Hps). reflexivity.
Qed.

Lemma nth_ascii (parts : list str) n :
  forallb (forallb is_ascii) parts = true -> forallb is_ascii (nth n parts []) = true.
Proof.
  revert n. induction parts as [|p ps IH]; intros n H; [destruct n; reflexivity|].
  simpl in H. apply andb_true_iff in H as [Hp Hps].
  destruct n; [exact Hp|]. apply IH, Hps.
Qed.

Lemma drop_ascii (parts : list str) n :
  forallb (forallb is_ascii) parts = true -> forallb (forallb is_ascii) (drop n parts) = true.
Proof.
  revert n. induction parts as [|p ps IH]; intros n H; [destruct n; reflexivity|].
  destruct n; [exact H|]. simpl in H. apply andb_true_iff in H as [Hp Hps].
  apply IH, Hps.
Qed.

End StringFacts.

(** ** The name validator *)

Section NameValidator.
Context {U : Unicode}.
Import pdf_batch_translator.

Lemma is_normalized_name_ascii stem :
  forallb is_ascii stem = true ->
  is_normalized_name stem = @is_normalized_name ascii_only stem.
Proof.
  intros H. unfold is_normalized_name.
  destruct (contains_chinese_characters stem); [reflexivity|].
  pose proof (split_ascii 45 stem H) as Hparts.
  destruct (length (split 45%N stem) <? 3)%nat; [reflexivity|].
  rewrite (str_isdigit_ascii _ (nth_ascii _ 1 Hparts)).
  rewrite (int_ascii _ (nth_ascii _ 1 Hparts)).
  rewrite (existsb_isdigit_ascii _ (nth_ascii _ 0 Hparts)).
  rewrite (existsb_isalpha_ascii _ (nth_ascii _ 0 Hparts)).
  rewrite (existsb_isalpha_ascii (join (lit "-") (drop 2 (split 45 stem)))).
  - reflexivity.
  - apply join_ascii; [reflexivity|]. apply drop_ascii, Hparts.
Qed.

End NameValidator.
Section NameValidator2.
Context {U : Unicode}.
Import pdf_batch_translator.

Lemma existsb_false_elem {A} (f : A -> bool) (l : list A) :
  existsb f l = false <-> forall x, x ∈ l -> f x = false.
Proof.
  rewrite <- not_true_iff_false, existsb_exists. split.
  - intros H x Hx. apply not_true_iff_false. intros Hf. apply H. exists x.
    split; [apply list_elem_of_In, Hx|exact Hf].
  - intros H [x [Hx Hf]]. rewrite (H x) in Hf; [discriminate|apply list_elem_of_In, Hx].
Qed.

Lemma existsb_true_elem {A} (f : A -> bool) (l : list A) :
  existsb f l = true <-> exists x, x ∈ l /\ f x = true.
Proof.
  rewrite existsb_exists. split; intros [x [Hx Hf]]; exists x; split; auto;
    apply list_elem_of_In; exact Hx.
Qed.

Lemma forallb_true_elem {A} (f : A -> bool) (l : list A) :
  forallb f l = true <-> forall x, x ∈ l -> f x = true.
Proof.
  rewrite forallb_forall. split; intros H x Hx; apply H; apply list_elem_of_In; exact Hx.
Qed.

Local Ltac dead H := solve [cbn beta iota zeta in H; congruence | cbn in H; congruence].

Lemma is_normalized_name_valid stem :
  is_normalized_name stem = Ok true <-> design.valid_name stem.
Proof.
  unfold is_normalized_name, design.valid_name, contains_chinese_characters.
  split.
  - intros H.
    destruct (existsb CJK_PATTERN stem) eqn:Hcjk; [dead H|].
    split; [apply existsb_false_elem, Hcjk|].
    destruct (split 45 stem) as [|author [|year [|t1 title]]] eqn:Hsplit;
      try dead H.
    exists author, year, (t1 :: title).
    change (nth 0 (author :: year :: t1 :: title) []) with author in H.
    change (nth 1 (author :: year :: t1 :: title) []) with year in H.
    change (drop 2 (author :: year :: t1 :: title)) with (t1 :: title) in H.
    replace (length (author :: year :: t1 :: title) <? 3)%nat with false in H
      by (symmetry; apply Nat.ltb_ge; simpl; lia).
    destruct (str_isdigit year) eqn:Hdig; [|dead H].
    destruct (int year) as [y|] eqn:Hint; [|dead H].
    cbn [mbind res_bind] in H.
    destruct ((1900 <=? y)%nat && (y <=? 2099)%nat && (length year =? 4)%nat) eqn:Hy;
      [|dead H].
    cbn [negb] in H.
    destruct (existsb isdigit author) eqn:Had; [dead H|].
    destruct (existsb isalpha author) eqn:Haa; [|dead H].
    destruct (existsb isalpha (join (lit "-") (t1 :: title))) eqn:Hta; [|dead H].
    apply andb_true_iff in Hy as [Hy Hlen]. apply andb_true_iff in Hy as [Hlo Hhi].
    apply Nat.leb_le in Hlo, Hhi. apply Nat.eqb_eq in Hlen.
    unfold str_isdigit in Hdig. apply andb_true_iff in Hdig as [_ Hdig].
    repeat split; try done.
    + apply existsb_false_elem, Had.
    + apply existsb_true_elem, Haa.
    + apply forallb_true_elem, Hdig.
    + exists y. auto.
    + apply existsb_true_elem, Hta.
  - intros [Hcjk (author & year & title & Hsplit & Hne & Had & Haa & Hlen & Hdig & (y & Hint & Hlo & Hhi) & Hta)].
    apply existsb_false_elem in Hcjk. rewrite Hcjk, Hsplit.
    destruct title as [|t1 title]; [done|].
    change (nth 0 (author :: year :: t1 :: title) []) with author.
    change (nth 1 (author :: year :: t1 :: title) []) with year.
    change (drop 2 (author :: year :: t1 :: title)) with (t1 :: title).
    replace (length (author :: year :: t1 :: title) <? 3)%nat with false
      by (symmetry; apply Nat.ltb_ge; simpl; lia).
    assert (Hd : str_isdigit year = true).
    { unfold str_isdigit. rewrite Hlen. apply forallb_true_elem in Hdig. rewrite Hdig. reflexivity. }
    rewrite Hd, Hint. cbn [mbind res_bind].
    apply Nat.leb_le in Hlo, Hhi. rewrite Hlo, Hhi, Hlen.
    cbn [andb negb Nat.eqb].
    apply existsb_false_elem in Had. apply existsb_true_elem in Haa, Hta.
    rewrite Had, Haa, Hta. reflexivity.
Qed.

End NameValidator2.

(** C7.  The name validator accepts a stem exactly when the stem has no
    CJK character, splits on '-' into at least three parts, its first part
    has no digit and at least one letter, its second part is four digits
    with a value from 1900 to 2099, and the remaining parts joined have at
    least one letter.  "Smith-2023-A Study of X" is accepted;
    the CJK stem (U+53F2 U+5BC6 U+65AF)-2023-(U+6807 U+9898),
    "Smith-23-Title" and "Smith2023-Title" are refused. *)
Theorem C7_name_validator {U : Unicode} :
  (forall stem : str,
     pdf_batch_translator.is_normalized_name stem = Ok true <-> design.valid_name stem) /\
  pdf_batch_translator.is_normalized_name (lit "Smith-2023-A Study of X") = Ok true /\
  pdf_batch_translator.is_normalized_name
    ([0x53F2; 0x5BC6; 0x65AF] ++ lit "-2023-" ++ [0x6807; 0x9898]) = Ok false /\
  pdf_batch_translator.is_normalized_name (lit "Smith-23-Title") = Ok false /\
  pdf_batch_translator.is_normalized_name (lit "Smith2023-Title") = Ok false.
Proof.
  split; [exact is_normalized_name_valid|].
  split; [|split; [|split]].
  - rewrite is_normalized_name_ascii by reflexivity. vm_compute. reflexivity.
  - reflexivity.
  - rewrite is_normalized_name_ascii by reflexivity. vm_compute. reflexivity.
  - reflexivity.
Qed.

(** ** The exclusion chain *)

Section FirstMatch.
Import design.

Lemma first_match_all_false (chain : list Entry) :
  (forall e, e ∈ chain -> entry_applies e = Ok false) ->
  first_match chain = (entry_rule <$> chain, Ok (false, [])).
Proof.
  induction chain as [|e chain IH]; intros H; [reflexivity|].
  cbn [first_match]. rewrite (H e) by apply list_elem_of_here.
  rewrite IH; [reflexivity|]. intros e' He'. apply H. apply list_elem_of_further, He'.
Qed.

Lemma first_match_hit (chain : list Entry) (k : nat) (e : Entry) :
  chain !! k = Some e ->
  entry_applies e = Ok true ->
  (forall j e', (j < k)%nat -> chain !! j = Some e' -> entry_applies e' = Ok false) ->
  first_match chain = (take (S k) (entry_rule <$> chain), Ok (true, entry_reason e)).
Proof.
  revert k. induction chain as [|e0 chain IH]; intros k Hk He Hbefore; [discriminate Hk|].
  destruct k as [|k].
  - injection Hk as ->. cbn [first_match]. rewrite He. reflexivity.
  - cbn [first_match]. rewrite (Hbefore 0%nat e0) by (try lia; reflexivity).
    rewrite (IH k); [reflexivity|exact Hk|exact He|].
    intros j e' Hj Hje'. apply (Hbefore (S j) e'); [lia|exact Hje'].
Qed.

End FirstMatch.

Section ExclusionChain.
Context {U : Unicode} (cfg : Config) (w : World).
Import design pdf_batch_translator.

Lemma leb_bool_decide (a b : nat) : (a <=? b)%nat = bool_decide (a ≤ b)%nat.
Proof.
  destruct (Nat.leb_spec a b); symmetry.
  - apply bool_decide_eq_true_2. lia.
  - apply bool_decide_eq_false_2. lia.
Qed.

Lemma Zltb_bool_decide (a b : Z) : (a <? b)%Z = bool_decide (a < b)%Z.
Proof.
  destruct (Z.ltb_spec a b); symmetry.
  - apply bool_decide_eq_true_2. lia.
  - apply bool_decide_eq_false_2. lia.
Qed.

Lemma Zleb_bool_decide (a b : Z) : (a <=? b)%Z = bool_decide (a ≤ b)%Z.
Proof.
  destruct (Z.leb_spec a b); symmetry.
  - apply bool_decide_eq_true_2. lia.
  - apply bool_decide_eq_false_2. lia.
Qed.

Lemma contains_exclusion_keywords_existsb filename keywords :
  contains_exclusion_keywords filename keywords =
  existsb (contains (lower filename)) keywords.
Proof. destruct keywords; reflexivity. Qed.

Lemma rule_first_match r c reason rest chain :
  rest = first_match chain ->
  rule r c reason rest = first_match (mkEntry r c reason :: chain).
Proof. intros ->. unfold rule. cbn [first_match entry_applies entry_rule entry_reason].
  destruct c as [[|]|]; reflexivity. Qed.

Lemma should_exclude_refines pdf_path exclusion_keywords failure_counts size :
  all_switches_enabled cfg ->
  stat_size w pdf_path = Ok size ->
  name pdf_path <> [] ->
  should_exclude_from_processing cfg w pdf_path exclusion_keywords failure_counts =
  first_match
    (evaluator.tests cfg w pdf_path exclusion_keywords failure_counts size
       (mkPath (parent pdf_path) (stem pdf_path ++ lit "_original.pdf"))).
Proof.
  intros (H4 & H5 & H7 & H8 & H10 & H11 & H12) Hstat Hname.
  assert (Hwith : forall n, with_name pdf_path n = Ok (mkPath (parent pdf_path) n)).
  { intros n. unfold with_name. destruct (name pdf_path); [done|reflexivity]. }
  unfold should_exclude_from_processing, evaluator.tests.
  rewrite Hstat, Hwith. unfold then_.
  rewrite H4, H5, H7, H8, H10, H11, H12. unfold gated.
  rewrite leb_bool_decide, Zltb_bool_decide, Zleb_bool_decide.
  rewrite contains_exclusion_keywords_existsb.
  destruct (check_translation_metadata_status w pdf_path) as [is_translated metadata_info].
  destruct (detect_chinese_content_via_vlm cfg w pdf_path) as [is_chinese detection_result].
  cbn [fst snd].
  repeat (apply rule_first_match). reflexivity.
Qed.

End ExclusionChain.
Section ExclusionChainTheorem.
Context {U : Unicode}.
Import design pdf_batch_translator.

Lemma startswith_refl (s : str) : startswith s s = true.
Proof. induction s as [|c s IH]; [reflexivity|]. simpl. rewrite N.eqb_refl. exact IH. Qed.

Lemma startswith_app (p rest : str) : startswith (p ++ rest) p = true.
Proof.
  induction p as [|c p IH]; [destruct rest; reflexivity|].
  simpl. rewrite N.eqb_refl. exact IH.
Qed.

Lemma tests_tags cfg w pdf_path kws counts size backup_path e :
  e ∈ evaluator.tests cfg w pdf_path kws counts size backup_path ->
  startswith (entry_reason e) (tag (entry_rule e)) = true.
Proof.
  unfold evaluator.tests. intros He.
  repeat (apply elem_of_cons in He as [->|He];
          [cbn [entry_reason entry_rule tag];
           first [apply startswith_refl | apply startswith_app | reflexivity]|]).
  apply not_elem_of_nil in He. destruct He.
Qed.


End ExclusionChainTheorem.


(** ** Failures inside the checks *)

Section FailurePolicy.
Context {U : Unicode}.
Import design pdf_batch_translator.

Local Ltac dead H := solve [cbn beta iota zeta in H; congruence | cbn in H; congruence].

Lemma json_is_str_true j s : json_is_str j s = true -> j = JStr s.
Proof.
  destruct j; try discriminate. unfold json_is_str, str_eqb.
  intros H. apply bool_decide_eq_true in H. congruence.
Qed.

(** The metadata check answers "translated" only after the document was
    opened, the attachment found and parsed, and its status read. *)
Lemma check_translated_inv w pdf_path :
  fst (check_translation_metadata_status w pdf_path) = true ->
  exists doc fields,
    open_document w (path_str pdf_path) = Ok doc /\
    fitz.embfile_get doc meta_name = Ok (BJson (JObj fields)) /\
    assoc_get (lit "pdf2zh.status") fields = Some (JStr (lit "translated")).
Proof.
  unfold check_translation_metadata_status.
  destruct (open_document w (path_str pdf_path)) as [doc|e] eqn:Hopen; [|intros H; dead H].
  cbn [mbind res_bind].
  destruct (negb (fitz.str_in meta_name (fitz.embfile_names doc))); [intros H; dead H|].
  destruct (fitz.embfile_get doc meta_name) as [content|e] eqn:Hget; [|intros H; dead H].
  cbn [mbind res_bind].
  destruct content as [|j|]; try (intros H; dead H).
  cbn [json_loads_decode].
  destruct j as [| | | | |fields]; try (intros H; dead H).
  cbn [json_get mbind res_bind].
  destruct (json_is_str _ (lit "translated")) eqn:Hst.
  - intros _. exists doc, fields. split; [reflexivity|]. split; [exact Hget|].
    apply json_is_str_true in Hst.
    destruct (assoc_get (lit "pdf2zh.status") fields) as [v|].
    + f_equal. exact Hst.
    + cbv in Hst. congruence.
  - destruct (json_is_str _ (lit "untranslated")); intros H; dead H.
Qed.

End FailurePolicy.
Section FailurePolicyTheorem.
Context {U : Unicode}.
Import design pdf_batch_translator.


Lemma detect_failed cfg w pdf_path :
  HAS_VLM_DETECT w = false \/
  (exists e, detect_pdf_language_via_vlm w (path_str pdf_path) = Raise e) ->
  fst (detect_chinese_content_via_vlm cfg w pdf_path) = false.
Proof.
  unfold detect_chinese_content_via_vlm. intros [H|[e H]].
  - rewrite H. reflexivity.
  - destruct (negb (HAS_VLM_DETECT w)); [reflexivity|].
    destruct (negb (SKIP_CHINESE_PDF_VLM cfg)); [reflexivity|].
    rewrite H. reflexivity.
Qed.



End FailurePolicyTheorem.



(** ** The metadata attachment *)

Section Metadata.
Context {U : Unicode}.
Import design pdf_batch_translator.

Lemma str_eqb_refl (s : str) : str_eqb s s = true.
Proof. apply bool_decide_eq_true_2. reflexivity. Qed.

Lemma str_in_elem n names : fitz.str_in n names = true <-> n ∈ names.
Proof.
  unfold fitz.str_in. rewrite existsb_true_elem. split.
  - intros [x [Hx Heq]]. apply bool_decide_eq_true in Heq. subst. exact Hx.
  - intros H. exists n. split; [exact H|apply str_eqb_refl].
Qed.

Lemma find_app_fresh (l : list (str * bytes)) n data :
  fitz.str_in n (l.*1) = false ->
  List.find (fun e => str_eqb (fst e) n) (l ++ [(n, data)]) = Some (n, data).
Proof.
  induction l as [|[k v] l IH]; intros H.
  - cbn. rewrite str_eqb_refl. reflexivity.
  - cbn in H. apply orb_false_iff in H as [Hk Hl].
    cbn. unfold str_eqb in *.
    assert (Hkn : bool_decide (k = n) = false).
    { apply bool_decide_eq_false in Hk. apply bool_decide_eq_false_2. congruence. }
    rewrite Hkn. apply IH, Hl.
Qed.

Lemma embfile_add_get doc n data doc' :
  fitz.embfile_add doc n data = Ok doc' ->
  fitz.embfile_get doc' n = Ok data /\
  fitz.str_in n (fitz.embfile_names doc') = true /\
  fitz.str_in n (fitz.embfile_names doc) = false /\
  fitz.embfiles doc' = fitz.embfiles doc ++ [(n, data)] /\
  fitz.pages doc' = fitz.pages doc.
Proof.
  unfold fitz.embfile_add.
  destruct (fitz.str_in n (fitz.embfile_names doc)) eqn:Hin; [discriminate|].
  intros [= <-]. unfold fitz.embfile_get, fitz.embfile_names in *. cbn [fitz.embfiles fitz.pages].
  rewrite (find_app_fresh _ _ _ Hin). cbn [snd].
  repeat split. apply str_in_elem. rewrite fmap_app. apply elem_of_app. right.
  apply list_elem_of_here.
Qed.

Lemma open_after_saveIncr w path doc w' :
  saveIncr w path doc = Ok w' -> open_document w' path = Ok doc.
Proof.
  unfold saveIncr. destruct (files w !! path) as [f|]; [|discriminate].
  destruct (incremental f); [|discriminate]. intros [= <-].
  unfold open_document, with_files. cbn [files]. rewrite lookup_insert_eq. reflexivity.
Qed.

Lemma stat_after_saveIncr w path doc w' :
  saveIncr w path doc = Ok w' -> is_Some (files w' !! path).
Proof.
  unfold saveIncr. destruct (files w !! path) as [f|]; [|discriminate].
  destruct (incremental f); [|discriminate]. intros [= <-].
  unfold with_files. cbn [files]. rewrite lookup_insert_eq. eexists. reflexivity.
Qed.

(** A payload whose top-level dict has the flat key [pdf2zh.status] set to
    "translated" is read as translated. *)
Lemma check_reads_flat_status w pdf_path doc fields :
  open_document w (path_str pdf_path) = Ok doc ->
  fitz.str_in meta_name (fitz.embfile_names doc) = true ->
  fitz.embfile_get doc meta_name = Ok (BJson (JObj fields)) ->
  assoc_get (lit "pdf2zh.status") fields = Some (JStr (lit "translated")) ->
  check_translation_metadata_status w pdf_path = (true, lit "already_translated").
Proof.
  intros Hopen Hin Hget Hstatus. unfold check_translation_metadata_status.
  rewrite Hopen. cbn [mbind res_bind]. rewrite Hin. cbn [negb].
  rewrite Hget. cbn [mbind res_bind json_loads_decode json_get].
  rewrite Hstatus. reflexivity.
Qed.

Lemma create_translation_metadata_translated cfg now source_sizes result_sizes gap_pt :
  exists rest,
    create_translation_metadata cfg now (lit "translated") source_sizes result_sizes gap_pt =
    JObj ((lit "pdf2zh.status", JStr (lit "translated")) :: rest).
Proof.
  unfold create_translation_metadata. rewrite str_eqb_refl.
  destruct (str_eqb (TRANSLATION_SERVICE cfg) (lit "siliconflow_free"));
    [|destruct (str_eqb (TRANSLATION_SERVICE cfg) (lit "siliconflow_pro"))];
    destruct result_sizes; eexists; reflexivity.
Qed.

End Metadata.
Section MetadataRule.
Context {U : Unicode}.
Import design pdf_batch_translator.

Local Ltac dead H := solve [cbn beta iota zeta in H; congruence | cbn in H; congruence].

Lemma embed_original_success w pdf_path original_pdf metadata w' :
  embed_original_file_attachment w pdf_path original_pdf metadata = ((true, []), w') ->
  exists doc',
    open_document w' (path_str pdf_path) = Ok doc' /\
    is_Some (files w' !! path_str pdf_path) /\
    fitz.str_in meta_name (fitz.embfile_names doc') = true /\
    fitz.embfile_get doc' meta_name = Ok (json_dumps_encode metadata).
Proof.
  unfold embed_original_file_attachment.
  destruct (open_document w (path_str pdf_path)) as [doc|e]; [|intros H; dead H].
  cbn [mbind res_bind].
  destruct (fitz.embfile_add doc meta_name (json_dumps_encode metadata)) as [doc1|e] eqn:Hadd;
    [|intros H; dead H].
  cbn [mbind res_bind].
  apply embfile_add_get in Hadd as (Hget & Hin & _ & Hemb & _).
  destruct (fitz.pages doc1) as [|page others].
  - cbn [mbind res_bind].
    destruct (saveIncr w (path_str pdf_path) doc1) as [w1|e] eqn:Hsave; [|intros H; dead H].
    intros [= <-]. exists doc1.
    split; [apply (open_after_saveIncr _ _ _ _ Hsave)|].
    split; [apply (stat_after_saveIncr _ _ _ _ Hsave)|]. split; assumption.
  - destruct (files w !! path_str original_pdf); [|intros H; dead H].
    cbn [mbind res_bind].
    match goal with |- context [saveIncr w _ ?d] => set (doc2 := d) end.
    destruct (saveIncr w (path_str pdf_path) doc2) as [w1|e] eqn:Hsave; [|intros H; dead H].
    intros [= <-]. exists doc2.
    split; [apply (open_after_saveIncr _ _ _ _ Hsave)|].
    split; [apply (stat_after_saveIncr _ _ _ _ Hsave)|]. split; assumption.
Qed.

(** A document that the batch translator stamped as translated (flat key
    [pdf2zh.status]) is read back as translated, and with the metadata
    rule on the evaluator excludes it with reason
    already_translated_by_metadata, unless one of the three earlier rules
    (failure count, backup suffix, generated-output suffix) matches. *)
Theorem flat_stamp_is_excluded (cfg : Config) (w w' : World) (pdf_path original_pdf : Path)
    (now : str) (source_sizes result_sizes : list PageSize) (gap_pt : Q)
    (exclusion_keywords : list str) (failure_counts : gmap str nat) :
  embed_original_file_attachment w pdf_path original_pdf
    (create_translation_metadata cfg now (lit "translated") source_sizes result_sizes gap_pt)
    = ((true, []), w') ->
  check_translation_metadata_status w' pdf_path = (true, lit "already_translated") /\
  (SKIP_TRANSLATED_BY_METADATA cfg = true ->
   (default 0 (failure_counts !! path_str pdf_path) < 3)%nat ->
   endswith (lower (name pdf_path)) (lit "_original.pdf") = false ->
   endswith (lower (name pdf_path)) (lit ".mono.pdf") = false ->
   endswith (lower (name pdf_path)) (lit ".dual.pdf") = false ->
   name pdf_path <> [] ->
   should_exclude_from_processing cfg w' pdf_path exclusion_keywords failure_counts =
   (take 4 priority,
    Ok (true, lit "already_translated_by_metadata:already_translated"))).
Proof.
  intros Hembed.
  destruct (embed_original_success _ _ _ _ _ Hembed) as (doc' & Hopen & [f Hf] & Hin & Hget).
  destruct (create_translation_metadata_translated cfg now source_sizes result_sizes gap_pt)
    as [rest Hmeta].
  rewrite Hmeta in Hget.
  assert (Hcheck : check_translation_metadata_status w' pdf_path =
                   (true, lit "already_translated")).
  { apply (check_reads_flat_status w' pdf_path doc' _ Hopen Hin Hget).
    cbn [assoc_get]. rewrite str_eqb_refl. reflexivity. }
  split; [exact Hcheck|].
  intros Hsw Hcount Hbackup Hmono Hdual Hname.
  unfold should_exclude_from_processing, stat_size. rewrite Hf. unfold then_ at 1.
  assert (H1 : (3 <=? default 0 (failure_counts !! path_str pdf_path))%nat = false)
    by (apply Nat.leb_gt; exact Hcount).
  rewrite H1. unfold rule at 1. cbn [fst snd].
  unfold with_name. destruct (name pdf_path) as [|c n] eqn:Hn; [done|]. unfold then_.
  rewrite Hbackup, Hmono, Hdual, Hcheck, Hsw. reflexivity.
Qed.

End MetadataRule.

Lemma flat_stamp_is_excluded_witness :
  pdf_batch_translator.embed_original_file_attachment sample.world sample.paper_path
    sample.mono_path
    (pdf_batch_translator.create_translation_metadata sample.cfg sample.now
       (lit "translated") [] [] 0)
    = ((true, []), sample.stamped_world) /\
  @pdf_batch_translator.check_translation_metadata_status sample.stamped_world
    sample.paper_path = (true, lit "already_translated").
Proof.
  assert (H : pdf_batch_translator.embed_original_file_attachment sample.world
                sample.paper_path sample.mono_path
                (pdf_batch_translator.create_translation_metadata sample.cfg sample.now
                   (lit "translated") [] [] 0)
              = ((true, []), sample.stamped_world)) by (vm_compute; reflexivity).
  split; [exact H|].
  apply (@flat_stamp_is_excluded ascii_only sample.cfg sample.world sample.stamped_world
           sample.paper_path sample.mono_path sample.now [] [] 0 [] ∅ H).
Defined.

(** The stamped paper has failed three times before: the reason returned
    is the one of rule 1. *)
Lemma rule_1_precedes_rule_4 :
  @pdf_batch_translator.check_translation_metadata_status sample.stamped_world
    sample.paper_path = (true, lit "already_translated") /\
  SKIP_TRANSLATED_BY_METADATA sample.cfg = true /\
  snd (@pdf_batch_translator.should_exclude_from_processing ascii_only sample.cfg
         sample.stamped_world sample.paper_path [] sample.three_failures) =
    Ok (true, lit "too_many_failures").
Proof. split; [vm_compute; reflexivity|]. split; [reflexivity|]. vm_compute. reflexivity. Qed.

(** The pair tool nests the status under the key [pdf2zh]; the reader
    looks for the flat key [pdf2zh.status], finds none, and does not
    report the document as translated. *)
Lemma nested_status_is_not_read :
  @pdf_batch_translator.check_translation_metadata_status sample.pair_stamped_world
    sample.paper_path = (false, lit "unknown_status:") /\
  snd (@pdf_batch_translator.should_exclude_from_processing ascii_only sample.cfg
         sample.pair_stamped_world sample.paper_path [] ∅) = Ok (false, []).
Proof. split; vm_compute; reflexivity. Qed.

(** ** Idempotence of the embed operation *)

Section Embed.
Import design pdf_batch_translator pdf_orphan_metadata_manager.

Local Ltac dead H := solve [cbn beta iota zeta in H; congruence | cbn in H; congruence].

Lemma embed_already_exists w pdf_path metadata doc :
  open_document w (path_str pdf_path) = Ok doc ->
  fitz.str_in meta_name (fitz.embfile_names doc) = true ->
  embed_metadata_attachment w pdf_path metadata = ((true, lit "already_exists"), w).
Proof.
  intros Hopen Hin. unfold embed_metadata_attachment.
  rewrite Hopen. cbn [mbind res_bind]. rewrite Hin. reflexivity.
Qed.

Lemma embed_failure_keeps_world w pdf_path metadata r w' :
  embed_metadata_attachment w pdf_path metadata = (r, w') ->
  fst r = false -> w' = w.
Proof.
  unfold embed_metadata_attachment.
  destruct (_ ≫= _) as [[msg w1]|e]; intros [= <- <-]; [discriminate|reflexivity].
Qed.

Lemma count_canonical_app (names : list str) :
  length (List.filter (fun n => str_eqb n meta_name) (names ++ [meta_name])) =
  S (length (List.filter (fun n => str_eqb n meta_name) names)).
Proof.
  rewrite List.filter_app, length_app. cbn [List.filter].
  rewrite str_eqb_refl. cbn [length]. lia.
Qed.

Lemma count_canonical_zero (names : list str) :
  fitz.str_in meta_name names = false <->
  length (List.filter (fun n => str_eqb n meta_name) names) = 0%nat.
Proof.
  induction names as [|n names IH]; [split; reflexivity|].
  cbn [fitz.str_in existsb List.filter].
  assert (Hsym : str_eqb meta_name n = str_eqb n meta_name).
  { unfold str_eqb. apply bool_decide_ext. split; congruence. }
  rewrite Hsym. destruct (str_eqb n meta_name); cbn [orb length].
  - split; discriminate.
  - exact IH.
Qed.

(** What a successful call does: either the attachment was there and
    nothing changes, or there was none and exactly one is added. *)
Lemma embed_success w pdf_path metadata msg w' :
  embed_metadata_attachment w pdf_path metadata = ((true, msg), w') ->
  exists doc',
    open_document w' (path_str pdf_path) = Ok doc' /\
    fitz.str_in meta_name (fitz.embfile_names doc') = true /\
    ((msg = lit "already_exists" /\ w' = w /\ (1 <= canonical_count w pdf_path)%nat) \/
     (msg = lit "success" /\ canonical_count w pdf_path = 0%nat /\
      canonical_count w' pdf_path = 1%nat)).
Proof.
  unfold embed_metadata_attachment, canonical_count.
  destruct (open_document w (path_str pdf_path)) as [doc|e] eqn:Hopen; [|intros H; dead H].
  cbn [mbind res_bind].
  destruct (fitz.str_in meta_name (fitz.embfile_names doc)) eqn:Hin.
  - intros [= <- <-]. exists doc. rewrite Hopen. split; [reflexivity|]. split; [exact Hin|].
    left. split; [reflexivity|]. split; [reflexivity|].
    destruct (length _) eqn:Hlen; [|lia].
    apply count_canonical_zero in Hlen. congruence.
  - destruct (fitz.embfile_add doc meta_name (json_dumps_encode metadata)) as [doc1|e] eqn:Hadd;
      [|intros H; dead H].
    cbn [mbind res_bind].
    destruct (saveIncr w (path_str pdf_path) doc1) as [w1|e] eqn:Hsave; [|intros H; dead H].
    cbn [mbind res_bind]. intros [= <- <-].
    apply embfile_add_get in Hadd as (_ & Hin1 & _ & Hemb & _).
    exists doc1. rewrite (open_after_saveIncr _ _ _ _ Hsave).
    split; [reflexivity|]. split; [exact Hin1|].
    right. split; [reflexivity|]. split; [apply count_canonical_zero, Hin|].
    unfold fitz.embfile_names. rewrite Hemb, fmap_app. cbn [fmap list_fmap fst].
    rewrite count_canonical_app.
    apply count_canonical_zero in Hin. unfold fitz.embfile_names in Hin. rewrite Hin.
    reflexivity.
Qed.


End Embed.

(** ** Replace with retry *)

Section Retry.
Import design pdf_batch_translator.

Lemma replace_attempts_success sched src dst max_retries initial_delay f :
  forall k remaining attempt st,
    (remaining + attempt = max_retries)%nat ->
    (k < remaining)%nat ->
    (forall i, (i < k)%nat -> replace_locked sched (replace_calls st + i) = true) ->
    replace_locked sched (replace_calls st + k) = false ->
    files (world st) !! path_str src = Some f ->
    replace_attempts sched src dst max_retries initial_delay remaining attempt st =
    (Ok true,
     mkOS (with_files (world st)
             (<[path_str dst := f]> (delete (path_str src) (files (world st)))))
          (replace_calls st + k + 1) (unlink_calls st)
          (sleeps st ++ backoff initial_delay attempt k)).
Proof.
  induction k as [|k IH]; intros remaining attempt st Hsum Hk Hlocked Hfree Hsrc.
  - destruct remaining as [|r]; [lia|]. cbn [replace_attempts]. unfold os_replace.
    rewrite Nat.add_0_r in Hfree. rewrite Hfree, Hsrc.
    unfold backoff. cbn [seq fmap list_fmap]. rewrite app_nil_r.
    f_equal; f_equal; lia.
  - destruct remaining as [|r]; [lia|]. cbn [replace_attempts]. unfold os_replace.
    rewrite <- (Nat.add_0_r (replace_calls st)) at 1.
    rewrite (Hlocked 0%nat) by lia.
    assert (Hlast : (attempt =? max_retries - 1)%nat = false) by (apply Nat.eqb_neq; lia).
    rewrite Hlast.
    rewrite (IH r (S attempt)); cbn [time_sleep world replace_calls unlink_calls sleeps].
    + unfold backoff. cbn [seq fmap list_fmap]. rewrite <- app_assoc. cbn [app].
      f_equal; f_equal; lia.
    + lia.
    + lia.
    + intros i Hi. replace (S (replace_calls st) + i)%nat with (replace_calls st + S i)%nat by lia.
      apply Hlocked. lia.
    + replace (S (replace_calls st) + k)%nat with (replace_calls st + S k)%nat by lia.
      exact Hfree.
    + exact Hsrc.
Qed.

Lemma replace_attempts_exhausted sched src dst max_retries initial_delay :
  forall remaining attempt st,
    (remaining + attempt = max_retries)%nat ->
    (0 < remaining)%nat ->
    (forall i, (i < remaining)%nat -> replace_locked sched (replace_calls st + i) = true) ->
    replace_attempts sched src dst max_retries initial_delay remaining attempt st =
    (Ok false,
     mkOS (world st) (replace_calls st + remaining) (unlink_calls st)
          (sleeps st ++ backoff initial_delay attempt (remaining - 1))).
Proof.
  induction remaining as [|r IH]; intros attempt st Hsum Hpos Hlocked; [lia|].
  cbn [replace_attempts]. unfold os_replace.
  rewrite <- (Nat.add_0_r (replace_calls st)) at 1.
  rewrite (Hlocked 0%nat) by lia.
  destruct r as [|r].
  - assert (Hlast : (attempt =? max_retries - 1)%nat = true) by (apply Nat.eqb_eq; lia).
    rewrite Hlast. unfold backoff. cbn [Nat.sub seq fmap list_fmap]. rewrite app_nil_r.
    f_equal; f_equal; lia.
  - assert (Hlast : (attempt =? max_retries - 1)%nat = false) by (apply Nat.eqb_neq; lia).
    rewrite Hlast.
    rewrite (IH (S attempt)); cbn [time_sleep world replace_calls unlink_calls sleeps].
    + unfold backoff. replace (S (S r) - 1)%nat with (S (S r - 1)) by lia.
      cbn [seq fmap list_fmap]. rewrite <- app_assoc. cbn [app].
      f_equal; f_equal; lia.
    + lia.
    + lia.
    + intros i Hi. replace (S (replace_calls st) + i)%nat with (replace_calls st + S i)%nat by lia.
      apply Hlocked. lia.
Qed.

(** [_atomic_replace_with_retry] returns True at the first attempt that
    finds the destination free, after sleeping 0.1 * 2^i between
    attempts; it has then made exactly [k + 1] calls of [os.replace]. *)
Lemma atomic_replace_succeeds sched src dst max_retries initial_delay st k f :
  (k < max_retries)%nat ->
  (forall i, (i < k)%nat -> replace_locked sched (replace_calls st + i) = true) ->
  replace_locked sched (replace_calls st + k) = false ->
  files (world st) !! path_str src = Some f ->
  _atomic_replace_with_retry sched src dst max_retries initial_delay st =
  (Ok true,
   mkOS (with_files (world st)
           (<[path_str dst := f]> (delete (path_str src) (files (world st)))))
        (replace_calls st + k + 1) (unlink_calls st)
        (sleeps st ++ backoff initial_delay 0 k)).
Proof.
  intros Hk Hlocked Hfree Hsrc. unfold _atomic_replace_with_retry.
  apply replace_attempts_success; try assumption. lia.
Qed.

(** When every attempt finds the destination locked, it returns False
    without raising, after [max_retries] calls and [max_retries - 1]
    sleeps, and the files are as they were. *)
Lemma atomic_replace_gives_up sched src dst max_retries initial_delay st :
  (forall i, (i < max_retries)%nat -> replace_locked sched (replace_calls st + i) = true) ->
  _atomic_replace_with_retry sched src dst max_retries initial_delay st =
  (Ok false,
   mkOS (world st) (replace_calls st + max_retries) (unlink_calls st)
        (sleeps st ++ backoff initial_delay 0 (max_retries - 1))).
Proof.
  intros Hlocked. unfold _atomic_replace_with_retry.
  destruct max_retries as [|m].
  - cbn [replace_attempts]. unfold backoff. cbn. rewrite app_nil_r, Nat.add_0_r.
    destruct st; reflexivity.
  - apply replace_attempts_exhausted; try assumption; lia.
Qed.

End Retry.

(** ** Side-by-side merge and split *)

Section Geometry.
Import design.

Lemma Qle_bool_refl (x : Q) : Qle_bool x x = true.
Proof. apply Qle_bool_iff, Qle_refl. Qed.

Lemma Qle_bool_false (x y : Q) : (y < x)%Q -> Qle_bool x y = false.
Proof.
  intros H. destruct (Qle_bool x y) eqn:E; [|reflexivity].
  apply Qle_bool_iff in E. exfalso. apply (Qlt_not_le _ _ H E).
Qed.

Lemma rect_contains_refl (r : fitz.Rect) : fitz.rect_contains r r = true.
Proof. unfold fitz.rect_contains. rewrite !Qle_bool_refl. reflexivity. Qed.

(** On a rectangle that is not empty the four setters go through. *)
Lemma set_all_page_boxes_ok (page : fitz.Page) (r : fitz.Rect) :
  fitz.is_empty r = false ->
  concatePDF._set_all_page_boxes page r =
  fitz.mkPage r r r r (fitz.contents page) (fitz.annots page).
Proof.
  intros Hr. unfold concatePDF._set_all_page_boxes. cbn [foldl].
  unfold fitz.set_box. rewrite Hr.
  repeat (cbn [fitz.mediabox fitz.cropbox fitz.trimbox fitz.bleedbox
               fitz.contents fitz.annots];
          rewrite ?rect_contains_refl).
  reflexivity.
Qed.

(** On an empty rectangle every setter raises, and the page keeps its
    boxes. *)
Lemma set_all_page_boxes_refused (page : fitz.Page) (r : fitz.Rect) :
  fitz.is_empty r = true -> concatePDF._set_all_page_boxes page r = page.
Proof.
  intros Hr. unfold concatePDF._set_all_page_boxes. cbn [foldl].
  unfold fitz.set_box. rewrite Hr. reflexivity.
Qed.

Lemma merge_page_ok right_doc gap i page rp :
  well_sized page -> (0 <= gap)%Q ->
  fitz.pages right_doc !! i = Some rp ->
  concatePDF.merge_page right_doc gap i page = Ok (side_by_side gap page rp).
Proof.
  intros [Hw Hh] Hgap Hrp. unfold concatePDF.merge_page, side_by_side.
  set (lw := fitz.width (fitz.rect page)) in *.
  set (lh := fitz.height (fitz.rect page)) in *.
  assert (Hwhole : fitz.is_empty (fitz.mkRect 0 0 (2 * lw + gap) lh) = false).
  { unfold fitz.is_empty. cbn [fitz.x0 fitz.x1 fitz.y0 fitz.y1].
    rewrite !Qle_bool_false; [reflexivity|exact Hh|].
    apply Qlt_le_trans with (2 * lw)%Q.
    - rewrite <- (Qmult_0_r 2). apply Qmult_lt_l; [reflexivity|exact Hw].
    - rewrite <- (Qplus_0_r (2 * lw)) at 1. apply Qplus_le_r. exact Hgap. }
  assert (Htarget : fitz.is_empty (fitz.mkRect (lw + gap) 0 (2 * lw + gap) lh) = false).
  { unfold fitz.is_empty. cbn [fitz.x0 fitz.x1 fitz.y0 fitz.y1].
    rewrite !Qle_bool_false; [reflexivity|exact Hh|].
    apply Qplus_lt_l. rewrite <- (Qmult_1_l lw) at 1.
    apply Qmult_lt_r; [exact Hw|reflexivity]. }
  rewrite (set_all_page_boxes_ok _ _ Hwhole).
  unfold fitz.show_pdf_page. rewrite Htarget, Hrp. reflexivity.
Qed.

Lemma merge_pages_ok right_doc gap :
  forall out i,
    (0 <= gap)%Q ->
    Forall well_sized out ->
    (i + length out <= length (fitz.pages right_doc))%nat ->
    exists pages',
      concatePDF.merge_pages right_doc gap i out = Ok pages' /\
      length pages' = length out /\
      forall j page, out !! j = Some page ->
        exists rp, fitz.pages right_doc !! (i + j)%nat = Some rp /\
                   pages' !! j = Some (side_by_side gap page rp).
Proof.
  induction out as [|page out IH]; intros i Hgap Hsized Hlen.
  - exists []. split; [reflexivity|]. split; [reflexivity|]. intros j page Hj. discriminate Hj.
  - apply Forall_cons in Hsized as [Hpage Hout]. cbn [length] in Hlen.
    destruct (lookup_lt_is_Some_2 (fitz.pages right_doc) i) as [rp Hrp]; [lia|].
    destruct (IH (S i) Hgap Hout) as (pages' & Hrest & Hlen' & Hlook); [lia|].
    exists (side_by_side gap page rp :: pages').
    split; [|split].
    + cbn [concatePDF.merge_pages]. rewrite (merge_page_ok _ _ _ _ rp Hpage Hgap Hrp).
      cbn [mbind res_bind]. rewrite Hrest. reflexivity.
    + cbn [length]. rewrite Hlen'. reflexivity.
    + intros [|j] page' Hj.
      * injection Hj as <-. exists rp. rewrite Nat.add_0_r. split; [exact Hrp|reflexivity].
      * destruct (Hlook j page' Hj) as (rp' & Hrp' & Hp').
        exists rp'. replace (i + S j)%nat with (S i + j)%nat by lia. split; assumption.
Qed.

(** The merge of [utils/concatePDF.py]: unequal page counts are refused;
    equal page counts, pages of positive size and a gap that is not
    negative give, page by page, the side-by-side page. *)
Lemma concatePDF_merge_geometry (left_doc right_doc : fitz.Document) (gap : Q) :
  (fitz.page_count left_doc <> fitz.page_count right_doc ->
   concatePDF.merged_document left_doc right_doc gap = Raise ValueError) /\
  (fitz.page_count left_doc = fitz.page_count right_doc ->
   Forall well_sized (fitz.pages left_doc) ->
   (0 <= gap)%Q ->
   exists out,
     concatePDF.merged_document left_doc right_doc gap = Ok out /\
     fitz.page_count out = fitz.page_count left_doc /\
     forall i lp, fitz.pages left_doc !! i = Some lp ->
       exists rp, fitz.pages right_doc !! i = Some rp /\
                  fitz.pages out !! i = Some (side_by_side gap lp rp)).
Proof.
  unfold concatePDF.merged_document, fitz.page_count. split.
  - intros Hne. apply Nat.eqb_neq in Hne. rewrite Hne. reflexivity.
  - intros Heq Hsized Hgap. rewrite <- Heq, Nat.eqb_refl. cbn [negb fitz.pages].
    destruct (merge_pages_ok right_doc gap (fitz.pages left_doc) 0 Hgap Hsized)
      as (pages' & Hmerge & Hlen & Hlook); [lia|].
    rewrite Hmerge. cbn [mbind res_bind].
    eexists. split; [reflexivity|]. cbn [fitz.pages]. split; [exact Hlen|].
    intros i lp Hi. apply (Hlook i lp Hi).
Qed.

End Geometry.

(** ** Names that are read but never bound *)

Section UnboundNames.
Import design pdf_batch_translator.

Lemma overwrite_path_unbound {A} (global_value : string -> A) :
  load_global module_globals global_value "overwrite_path" =
  Raise (NameError "overwrite_path").
Proof. reflexivity. Qed.

Lemma open_pdf_unbound {A} (global_value : string -> A) :
  load_global pdf_splitter.module_globals global_value "open_pdf" =
  Raise (NameError "open_pdf").
Proof. reflexivity. Qed.

(** In [utils/concatePDF.py] the name is bound. *)
Lemma open_pdf_bound_in_concatePDF {A} (global_value : string -> A) :
  load_global concatePDF.module_globals global_value "open_pdf" =
  Ok (global_value "open_pdf"%string).
Proof. reflexivity. Qed.

(** Every run of the batch translator's merge ends in an exception, in
    the state it started in. *)
Lemma merge_outcomes sched global_value temp_uuid pdf_left pdf_right output_path gap st :
  exists e,
    merge_pdfs_preserve_annotations sched global_value temp_uuid pdf_left pdf_right
      output_path gap st = (Raise e, st).
Proof.
  unfold merge_pdfs_preserve_annotations.
  destruct (open_document (world st) (path_str pdf_left)) as [left_doc|e]; [|eexists; reflexivity].
  destruct (open_document (world st) (path_str pdf_right)) as [right_doc|e]; [|eexists; reflexivity].
  destruct (negb _); [eexists; reflexivity|].
  cbn [fitz.pages].
  destruct (merge_pages right_doc gap 0 (fitz.pages left_doc)) as [pages'|e];
    cbn [mbind res_bind]; [|eexists; reflexivity].
  rewrite overwrite_path_unbound. cbn [mbind res_bind]. eexists. reflexivity.
Qed.

(** C2 at the failing input.  The batch translator's merge refuses
    documents of unequal page counts with ValueError, as claimed; for two
    documents of two letter-size pages each and gap 0 it builds the pages
    in memory and then raises NameError at the read of [overwrite_path]:
    no output is produced and the files are as they were.  No input makes
    it return. *)
Theorem C2_merge_raises_NameError :
  merge_pdfs_preserve_annotations sample.never_locked (fun _ => sample.paper_path)
    (lit "0a1b2c3d") sample.paper_path sample.mono_path sample.paper_path 0 sample.start
  = (Raise (NameError "overwrite_path"), sample.start) /\
  (exists out,
     concatePDF.merged_document sample.paper sample.translation 0 = Ok out /\
     fitz.pages out = [side_by_side 0 (sample.page 1) (sample.page 3);
                       side_by_side 0 (sample.page 2) (sample.page 4)]) /\
  (forall sched global_value temp_uuid pdf_left pdf_right output_path gap st left_doc right_doc,
     open_document (world st) (path_str pdf_left) = Ok left_doc ->
     open_document (world st) (path_str pdf_right) = Ok right_doc ->
     fitz.page_count left_doc <> fitz.page_count right_doc ->
     merge_pdfs_preserve_annotations sched global_value temp_uuid pdf_left pdf_right
       output_path gap st = (Raise ValueError, st)) /\
  (forall sched global_value temp_uuid pdf_left pdf_right output_path gap st,
     fst (merge_pdfs_preserve_annotations sched global_value temp_uuid pdf_left pdf_right
            output_path gap st) <> Ok tt /\
     snd (merge_pdfs_preserve_annotations sched global_value temp_uuid pdf_left pdf_right
            output_path gap st) = st).
Proof.
  split; [vm_compute; reflexivity|]. split; [|split].
  - eexists. split; vm_compute; reflexivity.
  - intros sched global_value temp_uuid pdf_left pdf_right output_path gap st
           left_doc right_doc Hl Hr Hne.
    unfold merge_pdfs_preserve_annotations. rewrite Hl, Hr.
    apply Nat.eqb_neq in Hne. rewrite Hne. reflexivity.
  - intros sched global_value temp_uuid pdf_left pdf_right output_path gap st.
    destruct (merge_outcomes sched global_value temp_uuid pdf_left pdf_right output_path gap st)
      as [e ->].
    split; [discriminate|reflexivity].
Qed.

(** C10 at the failing input.  The destination is locked for good; the
    merge raises NameError before its first call of [os.replace], so
    nothing is written beside the destination: neither a temporary file
    nor the sidecar.  On no input does the merge reach [os.replace]. *)
Theorem C10_sidecar_is_never_written :
  let sidecar := mkPath (parent sample.paper_path)
                        (@stem ascii_only sample.paper_path ++ lit ".pdf2zh-merged.pdf") in
  let run := merge_pdfs_preserve_annotations sample.always_locked
               (fun _ => sample.paper_path) (lit "0a1b2c3d")
               sample.paper_path sample.mono_path sample.paper_path 0 sample.start in
  fst run = Raise (NameError "overwrite_path") /\
  replace_calls (snd run) = 0%nat /\
  path_exists (world (snd run)) sidecar = false /\
  files (world (snd run)) = files sample.world /\
  (forall sched global_value temp_uuid pdf_left pdf_right output_path gap st,
     replace_calls (snd (merge_pdfs_preserve_annotations sched global_value temp_uuid
                           pdf_left pdf_right output_path gap st)) = replace_calls st /\
     files (world (snd (merge_pdfs_preserve_annotations sched global_value temp_uuid
                          pdf_left pdf_right output_path gap st))) = files (world st)).
Proof.
  cbv zeta. split; [vm_compute; reflexivity|]. split; [vm_compute; reflexivity|].
  split; [vm_compute; reflexivity|]. split; [vm_compute; reflexivity|].
  intros sched global_value temp_uuid pdf_left pdf_right output_path gap st.
  destruct (merge_outcomes sched global_value temp_uuid pdf_left pdf_right output_path gap st)
    as [e ->].
  split; reflexivity.
Qed.

(** C3 at the failing input.  The split raises NameError at its first
    statement, the call of [open_pdf], whatever the document; no page
    boundary is touched and nothing is written. *)
Theorem C3_split_raises_NameError :
  (forall global_value w merged_pdf out_path,
     pdf_splitter.extract_left_half_from_merged_pdf global_value w merged_pdf out_path =
     Raise (NameError "open_pdf")) /\
  (exists merged,
     concatePDF.merge_preserve_left_annotations sample.world
       (path_str sample.paper_path) (path_str sample.mono_path)
       (lit "/library/merged.pdf") 0 = Ok merged /\
     pdf_splitter.extract_left_half_from_merged_pdf
       (fun _ => pdf_splitter.open_pdf_document) merged
       (lit "/library/merged.pdf") (lit "/library/restored.pdf") =
     Raise (NameError "open_pdf")).
Proof.
  split.
  - intros global_value w merged_pdf out_path.
    unfold pdf_splitter.extract_left_half_from_merged_pdf.
    rewrite open_pdf_unbound. reflexivity.
  - eexists. split; [vm_compute; reflexivity|].
    unfold pdf_splitter.extract_left_half_from_merged_pdf.
    rewrite open_pdf_unbound. reflexivity.
Qed.

End UnboundNames.

Lemma doubled_half (a : Q) : (((2 * a + 0 - 0 - 0) / 2 - 0 - 0) == a)%Q.
Proof. field. Qed.

Lemma doubled_half_positive (a : Q) : (0 < a)%Q -> (0 < (2 * a + 0 - 0 - 0) / 2)%Q.
Proof.
  intros Ha. assert (H : ((2 * a + 0 - 0 - 0) / 2 == a)%Q) by field.
  rewrite H. exact Ha.
Qed.

Lemma minus_zero_twice (b : Q) : (b - 0 - 0 == b)%Q.
Proof. ring. Qed.

Lemma positive_rect_not_empty (w h : Q) :
  (0 < w)%Q -> (0 < h)%Q -> fitz.is_empty (fitz.mkRect 0 0 w h) = false.
Proof.
  intros Hw Hh. unfold fitz.is_empty. cbn [fitz.x0 fitz.x1 fitz.y0 fitz.y1].
  rewrite (Qle_bool_false w 0 Hw), (Qle_bool_false h 0 Hh). reflexivity.
Qed.

(** A page of positive half width and positive height is split into its
    left half. *)
Lemma split_page_ok (page : fitz.Page) :
  (0 < fitz.width (fitz.rect page) / 2)%Q -> (0 < fitz.height (fitz.rect page))%Q ->
  pdf_splitter.split_page page = design.left_half page.
Proof.
  intros Hw Hh. unfold pdf_splitter.split_page, design.left_half.
  exact (set_all_page_boxes_ok page _ (positive_rect_not_empty _ _ Hw Hh)).
Qed.

(** What the loop of the split would do to a merged page, were it
    reached: with gap 0 the left boundaries come back, width equal up to
    the arithmetic of rationals, and the annotations are those of the
    left page. *)
Lemma split_page_of_merged (lp rp : fitz.Page) :
  design.well_sized lp ->
  let merged := design.side_by_side 0 lp rp in
  pdf_splitter.split_page merged = design.left_half merged /\
  (fitz.width (fitz.rect (pdf_splitter.split_page merged)) == fitz.width (fitz.rect lp))%Q /\
  fitz.height (fitz.rect (pdf_splitter.split_page merged)) == fitz.height (fitz.rect lp) /\
  fitz.annots (pdf_splitter.split_page merged) = fitz.annots lp.
Proof.
  intros [Hw Hh] merged.
  assert (Hsplit : pdf_splitter.split_page merged = design.left_half merged).
  { apply split_page_ok.
    - exact (doubled_half_positive _ Hw).
    - change (0 < fitz.height (fitz.rect lp) - 0 - 0)%Q.
      rewrite minus_zero_twice. exact Hh. }
  split; [exact Hsplit|]. rewrite Hsplit.
  split; [exact (doubled_half (fitz.width (fitz.rect lp)))|].
  split; [|reflexivity].
  change (fitz.height (fitz.rect lp) - 0 - 0 - 0 - 0 == fitz.height (fitz.rect lp))%Q.
  rewrite !minus_zero_twice. reflexivity.
Qed.


(** ** Gap inference *)

Section GapInference.
Context {F : Float}.
Import design pdf_pair_metadata_manager.

Local Open Scope Q_scope.

Lemma Qle_bool_proper a a' b b' : a == a' -> b == b' -> Qle_bool a b = Qle_bool a' b'.
Proof. intros Ha Hb. apply Qleb_comp; assumption. Qed.

Lemma insert_sorted_length {A} (leb : A -> A -> bool) x l :
  length (insert_sorted leb x l) = S (length l).
Proof.
  induction l as [|y l IH]; [reflexivity|].
  cbn [insert_sorted]. destruct (leb x y); cbn [length]; [reflexivity|]. rewrite IH. reflexivity.
Qed.

Lemma sorted_length {A} (leb : A -> A -> bool) l : length (sorted leb l) = length l.
Proof.
  induction l as [|x l IH]; [reflexivity|].
  unfold sorted in *. cbn [fold_right]. rewrite insert_sorted_length, IH. reflexivity.
Qed.

Lemma insert_sorted_Forall {A} (P : A -> Prop) (leb : A -> A -> bool) x l :
  P x -> Forall P l -> Forall P (insert_sorted leb x l).
Proof.
  intros Hx. induction 1 as [|y l Hy Hl IH]; cbn [insert_sorted].
  - repeat constructor. exact Hx.
  - destruct (leb x y); repeat constructor; assumption.
Qed.

Lemma sorted_Forall {A} (P : A -> Prop) (leb : A -> A -> bool) l :
  Forall P l -> Forall P (sorted leb l).
Proof.
  induction 1 as [|x l Hx Hl IH]; [constructor|].
  unfold sorted in *. cbn [fold_right]. apply insert_sorted_Forall; assumption.
Qed.

Lemma insert_sorted_Qeq x x' l l' :
  x == x' -> Forall2 Qeq l l' ->
  Forall2 Qeq (insert_sorted Qle_bool x l) (insert_sorted Qle_bool x' l').
Proof.
  intros Hx. induction 1 as [|y y' l l' Hy Hl IH]; cbn [insert_sorted].
  - repeat constructor. exact Hx.
  - rewrite (Qle_bool_proper x x' y y' Hx Hy).
    destruct (Qle_bool x' y'); repeat constructor; assumption.
Qed.

Lemma sorted_Qeq l l' :
  Forall2 Qeq l l' -> Forall2 Qeq (sorted Qle_bool l) (sorted Qle_bool l').
Proof.
  induction 1 as [|x x' l l' Hx Hl IH]; [constructor|].
  unfold sorted in *. cbn [fold_right]. apply insert_sorted_Qeq; assumption.
Qed.

Lemma nth_Qeq l l' n : Forall2 Qeq l l' -> nth n l 0 == nth n l' 0.
Proof.
  intros H. revert n. induction H as [|x x' l l' Hx Hl IH]; intros [|n]; cbn [nth];
    try reflexivity; [exact Hx|apply IH].
Qed.

Lemma middle_Qeq l l' : Forall2 Qeq l l' -> middle l == middle l'.
Proof.
  intros H. unfold middle. rewrite <- (Forall2_length _ _ _ H).
  destruct (Nat.odd (length l)).
  - apply nth_Qeq, H.
  - rewrite (nth_Qeq l l' _ H), (nth_Qeq l l' (length l / 2) H). reflexivity.
Qed.

Lemma nth_Forall_Qeq l n c : Forall (fun x => x == c) l -> (n < length l)%nat -> nth n l 0 == c.
Proof.
  intros H. revert n. induction H as [|x l Hx Hl IH]; intros [|n] Hn; cbn [length nth] in *;
    try lia; [exact Hx|apply IH; lia].
Qed.

Lemma middle_constant l c : l <> [] -> Forall (fun x => x == c) l -> middle l == c.
Proof.
  intros Hne H. unfold middle.
  assert (Hpos : (0 < length l)%nat) by (destruct l; [done|cbn; lia]).
  assert (Hhalf : (length l / 2 < length l)%nat) by (apply Nat.div_lt; lia).
  destruct (Nat.odd (length l)).
  - apply nth_Forall_Qeq; assumption.
  - rewrite !(nth_Forall_Qeq l _ c H) by lia. field.
Qed.

(** The median is defined on every list that is not empty: the branch
    that takes the mean is never entered. *)
Lemma median_defined gaps :
  gaps <> [] -> median gaps = Ok (middle (sorted Qle_bool gaps)).
Proof.
  intros Hne. unfold median, middle. rewrite sorted_length.
  assert (Hn : (length gaps =? 0)%nat = false).
  { apply Nat.eqb_neq. destruct gaps; [done|discriminate]. }
  rewrite Hn. destruct (Nat.odd (length gaps)); reflexivity.
Qed.

Lemma infer_gap_pt_middle source_sizes result_sizes :
  infer_gap_pt source_sizes result_sizes =
  match gaps_of source_sizes result_sizes with
  | [] => 0
  | gaps => round2 (middle (sorted Qle_bool gaps))
  end.
Proof.
  unfold infer_gap_pt. destruct (gaps_of source_sizes result_sizes) as [|g gaps] eqn:E;
    [reflexivity|].
  rewrite median_defined by discriminate. reflexivity.
Qed.

End GapInference.
Section GapInferenceTheorem.
Context {F : Float}.
Import design pdf_pair_metadata_manager.

Local Open Scope Q_scope.

Lemma max0_Qmax x y : x == y -> max0 x == Qmax 0 y.
Proof.
  intros Hxy. unfold max0. destruct (Qle_bool x 0) eqn:E.
  - apply Qle_bool_iff in E. symmetry. apply Q.max_l. rewrite <- Hxy. exact E.
  - rewrite Hxy. symmetry. apply Q.max_r.
    destruct (Qlt_le_dec 0 y) as [Hlt|Hle]; [apply Qlt_le_weak, Hlt|].
    exfalso. rewrite <- Hxy in Hle. apply Qle_bool_iff in Hle. congruence.
Qed.

Lemma residual_code s r : size_w r - (size_w s + size_w s) == residual s r.
Proof. unfold residual. ring. Qed.

(** The list the loop builds is, entry by entry, the list of kept
    candidates. *)
Lemma gaps_of_kept source_sizes result_sizes :
  Forall2 Qeq (gaps_of source_sizes result_sizes)
              (kept_candidates source_sizes result_sizes).
Proof.
  unfold kept_candidates.
  revert result_sizes. induction source_sizes as [|s source_sizes IH]; intros [|r result_sizes];
    try constructor.
  cbn [gaps_of zip zip_with List.filter fst snd].
  assert (Hc : round2 (size_w r - (size_w s + size_w s)) == round2 (residual s r))
    by apply round2_proper, residual_code.
  rewrite (Qle_bool_proper _ (- (1 # 2)) _ (round2 (residual s r)) (Qeq_refl _) Hc).
  destruct (Qle_bool (- (1 # 2)) (round2 (residual s r))); cbn [app fmap list_fmap].
  - constructor; [|apply IH]. apply max0_Qmax, round2_proper, Hc.
  - apply IH.
Qed.

Lemma infer_gap_pt_amended source_sizes result_sizes :
  infer_gap_pt source_sizes result_sizes == amended_gap source_sizes result_sizes.
Proof.
  rewrite infer_gap_pt_middle. unfold amended_gap.
  pose proof (gaps_of_kept source_sizes result_sizes) as H.
  destruct H as [|g k gs ks Hg Hrest]; [reflexivity|].
  apply round2_proper, middle_Qeq, sorted_Qeq. constructor; assumption.
Qed.

(** When every page was widened to twice its width plus the same whole
    number of points, that number is the gap inferred. *)
Lemma infer_gap_pt_uniform source_sizes result_sizes (g : Z) :
  (0 <= g <= 2 ^ 53)%Z ->
  zip source_sizes result_sizes <> [] ->
  (forall s r, (s, r) ∈ zip source_sizes result_sizes -> residual s r == inject_Z g) ->
  infer_gap_pt source_sizes result_sizes == inject_Z g.
Proof.
  intros Hg Hne Hall. rewrite infer_gap_pt_middle.
  assert (Hround : round2 (inject_Z g) == inject_Z g) by (apply round2_int; lia).
  assert (Hgaps : Forall (fun x => x == inject_Z g) (gaps_of source_sizes result_sizes) /\
                  gaps_of source_sizes result_sizes <> []).
  { revert result_sizes Hne Hall.
    induction source_sizes as [|s source_sizes IH]; intros [|r result_sizes] Hne Hall;
      try done.
    cbn [gaps_of].
    assert (Hres : residual s r == inject_Z g) by (apply Hall; cbn; apply list_elem_of_here).
    assert (Hc : round2 (size_w r - (size_w s + size_w s)) == inject_Z g).
    { transitivity (round2 (inject_Z g)); [|exact Hround].
      apply round2_proper. rewrite residual_code. exact Hres. }
    assert (Hkeep : Qle_bool (- (1 # 2)) (round2 (size_w r - (size_w s + size_w s))) = true).
    { apply Qle_bool_iff. rewrite Hc. apply Qle_trans with 0; [discriminate|].
      change 0 with (inject_Z 0). rewrite <- Zle_Qle. lia. }
    rewrite Hkeep. cbn [app]. split; [|discriminate].
    constructor.
    - assert (Hrr : round2 (round2 (size_w r - (size_w s + size_w s))) == inject_Z g).
      { transitivity (round2 (inject_Z g)); [apply round2_proper, Hc|exact Hround]. }
      unfold max0. destruct (Qle_bool _ 0) eqn:E; [|exact Hrr].
      apply Qle_bool_iff in E. rewrite Hrr in E. apply Qle_antisym; [|exact E].
      change 0 with (inject_Z 0). rewrite <- Zle_Qle. lia.
    - destruct (zip source_sizes result_sizes) as [|p ps] eqn:Ez.
      + destruct source_sizes as [|s' ss]; [constructor|].
        destruct result_sizes as [|r' rs]; [constructor|discriminate Ez].
      + apply IH; [rewrite Ez; discriminate|].
        intros s' r' Hin. apply Hall. cbn [zip zip_with]. apply list_elem_of_further.
        exact Hin. }
  destruct Hgaps as [Hgaps Hne'].
  destruct (gaps_of source_sizes result_sizes) as [|x xs] eqn:E; [done|].
  transitivity (round2 (inject_Z g)); [|exact Hround].
  apply round2_proper. apply middle_constant.
  - intros Hs. apply (f_equal length) in Hs. rewrite sorted_length in Hs. discriminate Hs.
  - apply sorted_Forall, Hgaps.
Qed.

(** The gap inferred is the rounded median of the kept candidates: over
    the pages both lists have, a page whose rounded residual
    [result_width - 2 * source_width] is below -0.5 gives no candidate,
    every other page gives its rounded residual with negative values
    counted as zero; without candidates the gap is 0. *)
Theorem infer_gap_pt_is_rounded_median_of_kept source_sizes result_sizes :
  infer_gap_pt source_sizes result_sizes == amended_gap source_sizes result_sizes.
Proof. apply infer_gap_pt_amended. Qed.

(** Pages all widened to twice their width plus the same whole number of
    points give that number. *)
Theorem infer_gap_pt_recovers_uniform_gap source_sizes result_sizes (g : Z) :
  (0 <= g <= 2 ^ 53)%Z ->
  zip source_sizes result_sizes <> [] ->
  (forall s r, (s, r) ∈ zip source_sizes result_sizes -> residual s r == inject_Z g) ->
  infer_gap_pt source_sizes result_sizes == inject_Z g.
Proof. apply infer_gap_pt_uniform. Qed.

Lemma gaps_of_app (before_s before_r after_s after_r : list PageSize) :
  length before_s = length before_r ->
  gaps_of (before_s ++ after_s) (before_r ++ after_r) =
  gaps_of before_s before_r ++ gaps_of after_s after_r.
Proof.
  revert before_r. induction before_s as [|s ss IH]; intros [|r rs] Hlen;
    try discriminate Hlen; [reflexivity|].
  cbn [app gaps_of]. rewrite IH by (simpl in Hlen; lia).
  rewrite <- app_assoc. reflexivity.
Qed.

(** A page whose rounded residual is below -0.5 is left out, wherever it
    stands in the document: the gap is the one inferred from the other
    pages. *)
Theorem infer_gap_pt_skips_unwidened_page
    (before_s before_r : list PageSize) (s r : PageSize) (after_s after_r : list PageSize) :
  length before_s = length before_r ->
  Qle_bool (- (1 # 2)) (round2 (size_w r - (size_w s + size_w s))) = false ->
  infer_gap_pt (before_s ++ s :: after_s) (before_r ++ r :: after_r) =
  infer_gap_pt (before_s ++ after_s) (before_r ++ after_r).
Proof.
  intros Hlen H. unfold infer_gap_pt.
  rewrite !gaps_of_app by exact Hlen. cbn [gaps_of]. rewrite H. reflexivity.
Qed.

(** Only the pages that both lists have count: the longer list is cut to
    the length of the shorter one. *)
Theorem infer_gap_pt_ignores_unpaired_pages source_sizes result_sizes :
  let n := Nat.min (length source_sizes) (length result_sizes) in
  infer_gap_pt source_sizes result_sizes =
  infer_gap_pt (take n source_sizes) (take n result_sizes).
Proof.
  cbv zeta. unfold infer_gap_pt.
  assert (H : gaps_of source_sizes result_sizes =
              gaps_of (take (Nat.min (length source_sizes) (length result_sizes)) source_sizes)
                      (take (Nat.min (length source_sizes) (length result_sizes)) result_sizes)).
  { revert result_sizes. induction source_sizes as [|s ss IH]; intros [|r rs];
      try reflexivity.
    cbn [length Nat.min take gaps_of]. rewrite <- IH. reflexivity. }
  rewrite <- H. reflexivity.
Qed.

End GapInferenceTheorem.

Lemma infer_gap_pt_recovers_uniform_gap_witness :
  (0 <= 10 <= 2 ^ 53)%Z /\
  (@pdf_pair_metadata_manager.infer_gap_pt exact_round2
     [mkPageSize 100 200; mkPageSize 100 200; mkPageSize 100 200]
     [mkPageSize 210 200; mkPageSize 210 200; mkPageSize 210 200] == inject_Z 10)%Q.
Proof.
  assert (H : (0 <= 10 <= 2 ^ 53)%Z) by lia.
  split; [exact H|].
  apply (@infer_gap_pt_recovers_uniform_gap exact_round2 _ _ 10%Z H); [discriminate|].
  intros s r Hin. cbn [zip zip_with] in Hin.
  repeat (apply elem_of_cons in Hin as [[= -> ->]|Hin]; [reflexivity|]).
  apply not_elem_of_nil in Hin. destruct Hin.
Defined.

Lemma infer_gap_pt_skips_unwidened_page_witness :
  (@pdf_pair_metadata_manager.infer_gap_pt exact_round2
     [mkPageSize 100 200; mkPageSize 100 200; mkPageSize 100 200]
     [mkPageSize 210 200; mkPageSize 100 200; mkPageSize 205 200] =
   @pdf_pair_metadata_manager.infer_gap_pt exact_round2
     [mkPageSize 100 200; mkPageSize 100 200] [mkPageSize 210 200; mkPageSize 205 200]) /\
  (design.claimed_gap [mkPageSize 100 200; mkPageSize 100 200; mkPageSize 100 200]
     [mkPageSize 210 200; mkPageSize 100 200; mkPageSize 205 200] == 5)%Q /\
  (@pdf_pair_metadata_manager.infer_gap_pt exact_round2
     [mkPageSize 100 200; mkPageSize 100 200; mkPageSize 100 200]
     [mkPageSize 210 200; mkPageSize 100 200; mkPageSize 205 200] == 15 # 2)%Q.
Proof.
  split; [|split; vm_compute; reflexivity].
  apply (@infer_gap_pt_skips_unwidened_page exact_round2
           [mkPageSize 100 200] [mkPageSize 210 200] (mkPageSize 100 200) (mkPageSize 100 200)
           [mkPageSize 100 200] [mkPageSize 205 200]); [reflexivity|].
  vm_compute. reflexivity.
Defined.

(** ** Replace and delete with retry: more cases *)

Section RetryMore.
Import design pdf_batch_translator.

(** An error of [os.replace] other than PermissionError is not retried:
    when the destination is free and the source file is missing,
    FileNotFoundError leaves the function at the first attempt. *)
Theorem atomic_replace_missing_source_raises sched src dst max_retries initial_delay st :
  (0 < max_retries)%nat ->
  replace_locked sched (replace_calls st) = false ->
  files (world st) !! path_str src = None ->
  _atomic_replace_with_retry sched src dst max_retries initial_delay st =
  (Raise FileNotFoundError,
   mkOS (world st) (S (replace_calls st)) (unlink_calls st) (sleeps st)).
Proof.
  intros Hpos Hfree Hsrc. unfold _atomic_replace_with_retry.
  destruct max_retries as [|m]; [lia|].
  cbn [replace_attempts]. unfold os_replace. rewrite Hfree, Hsrc. reflexivity.
Qed.

Lemma unlink_attempts_missing sched path max_retries initial_delay :
  forall remaining attempt st,
    (remaining + attempt = max_retries)%nat ->
    (0 < remaining)%nat ->
    files (world st) !! path_str path = None ->
    unlink_attempts sched path max_retries initial_delay remaining attempt st =
    (false,
     mkOS (world st) (replace_calls st) (unlink_calls st + remaining)
          (sleeps st ++ backoff initial_delay attempt (remaining - 1))).
Proof.
  induction remaining as [|r IH]; intros attempt st Hsum Hpos Hmissing; [lia|].
  cbn [unlink_attempts]. unfold path_unlink. rewrite Hmissing.
  destruct (unlink_locked sched (unlink_calls st)).
  all: destruct r as [|r].
  all: try (assert (Hlast : (attempt =? max_retries - 1)%nat = true) by (apply Nat.eqb_eq; lia);
            rewrite Hlast; unfold backoff; cbn [Nat.sub seq fmap list_fmap];
            rewrite app_nil_r; f_equal; f_equal; lia).
  all: assert (Hlast : (attempt =? max_retries - 1)%nat = false) by (apply Nat.eqb_neq; lia);
       rewrite Hlast;
       rewrite (IH (S attempt)); cbn [time_sleep world replace_calls unlink_calls sleeps];
       [|lia|lia|exact Hmissing];
       unfold backoff; replace (S (S r) - 1)%nat with (S (S r - 1)) by lia;
       cbn [seq fmap list_fmap]; rewrite <- app_assoc; cbn [app];
       f_equal; f_equal; lia.
Qed.

(** Deleting a file that is already gone is not a success: every attempt
    raises, the errors are swallowed, and after [max_retries] attempts and
    the sleeps between them [_retry_unlink] returns False, the files
    untouched. *)
Theorem retry_unlink_of_missing_file_fails sched path max_retries initial_delay st :
  (0 < max_retries)%nat ->
  files (world st) !! path_str path = None ->
  _retry_unlink sched path max_retries initial_delay st =
  (false,
   mkOS (world st) (replace_calls st) (unlink_calls st + max_retries)
        (sleeps st ++ backoff initial_delay 0 (max_retries - 1))).
Proof.
  intros Hpos Hmissing. unfold _retry_unlink.
  apply unlink_attempts_missing; try assumption. lia.
Qed.

End RetryMore.

Lemma atomic_replace_succeeds_witness :
  (2 < 10)%nat /\
  fst (pdf_batch_translator._atomic_replace_with_retry sample.locked_twice
         sample.mono_path sample.paper_path 10 (1 # 10) sample.start) = Ok true /\
  sleeps (snd (pdf_batch_translator._atomic_replace_with_retry sample.locked_twice
                 sample.mono_path sample.paper_path 10 (1 # 10) sample.start)) =
    design.backoff (1 # 10) 0 2.
Proof.
  assert (H1 : (2 < 10)%nat) by lia.
  assert (H2 : forall i, (i < 2)%nat ->
               replace_locked sample.locked_twice (replace_calls sample.start + i) = true).
  { intros i Hi. destruct i as [|[|i]]; [reflexivity|reflexivity|lia]. }
  assert (H3 : replace_locked sample.locked_twice (replace_calls sample.start + 2) = false)
    by reflexivity.
  assert (H4 : files (world sample.start) !! path_str sample.mono_path =
               Some (mkFile 4096 (Ok sample.translation) (Ok 2%nat) true))
    by (vm_compute; reflexivity).
  split; [exact H1|].
  rewrite (atomic_replace_succeeds sample.locked_twice sample.mono_path sample.paper_path
             10 (1 # 10) sample.start 2 _ H1 H2 H3 H4).
  split; reflexivity.
Defined.

Lemma atomic_replace_gives_up_witness :
  fst (pdf_batch_translator._atomic_replace_with_retry sample.always_locked
         sample.mono_path sample.paper_path 10 (1 # 10) sample.start) = Ok false /\
  length (sleeps (snd (pdf_batch_translator._atomic_replace_with_retry sample.always_locked
                         sample.mono_path sample.paper_path 10 (1 # 10) sample.start))) = 9%nat.
Proof.
  rewrite (atomic_replace_gives_up sample.always_locked sample.mono_path sample.paper_path
             10 (1 # 10) sample.start (fun i _ => eq_refl)).
  split; reflexivity.
Defined.

Lemma atomic_replace_missing_source_raises_witness :
  fst (pdf_batch_translator._atomic_replace_with_retry sample.never_locked
         (mkPath (lit "/library") (lit "gone.pdf")) sample.paper_path 10 (1 # 10)
         sample.start) = Raise FileNotFoundError.
Proof.
  rewrite (atomic_replace_missing_source_raises sample.never_locked
             (mkPath (lit "/library") (lit "gone.pdf")) sample.paper_path 10 (1 # 10)
             sample.start); [reflexivity|lia|reflexivity|vm_compute; reflexivity].
Defined.

Lemma retry_unlink_of_missing_file_fails_witness :
  pdf_batch_translator._retry_unlink sample.never_locked
    (mkPath (lit "/library") (lit "gone.pdf")) 5 (1 # 20) sample.start =
  (false, mkOS sample.world 0 5 (design.backoff (1 # 20) 0 4)).
Proof.
  rewrite (retry_unlink_of_missing_file_fails sample.never_locked
             (mkPath (lit "/library") (lit "gone.pdf")) 5 (1 # 20) sample.start);
    [reflexivity|lia|vm_compute; reflexivity].
Defined.

Lemma split_page_of_merged_witness :
  design.well_sized (sample.page 1) /\
  pdf_splitter.split_page (design.side_by_side 0 (sample.page 1) (sample.page 3)) =
  design.left_half (design.side_by_side 0 (sample.page 1) (sample.page 3)).
Proof.
  assert (H : design.well_sized (sample.page 1)) by (split; reflexivity).
  split; [exact H|].
  apply (split_page_of_merged (sample.page 1) (sample.page 3) H).
Defined.

(** ** The evaluator against the rules of the design *)

Section Rules.
Context {U : Unicode} (cfg : Config) (w : World).
Import design pdf_batch_translator.

Lemma embfile_get_named doc n data :
  fitz.embfile_get doc n = Ok data -> fitz.str_in n (fitz.embfile_names doc) = true.
Proof.
  unfold fitz.embfile_get.
  destruct (List.find _ (fitz.embfiles doc)) as [e|] eqn:Hfind; [|discriminate].
  intros _. apply List.find_some in Hfind as [Hin Heq].
  apply bool_decide_eq_true in Heq. apply str_in_elem. subst n.
  unfold fitz.embfile_names. apply list_elem_of_fmap. exists e.
  split; [reflexivity|apply list_elem_of_In, Hin].
Qed.

Lemma metadata_rule pdf_path :
  fst (check_translation_metadata_status w pdf_path) = true <->
  recorded_status w pdf_path (JStr (lit "translated")).
Proof.
  split.
  - apply check_translated_inv.
  - intros (doc & fields & Hopen & Hget & Hstatus).
    rewrite (check_reads_flat_status w pdf_path doc fields Hopen
               (embfile_get_named _ _ _ Hget) Hget Hstatus).
    reflexivity.
Qed.

Lemma page_count_rule pdf_path : get_page_count w pdf_path = page_count w pdf_path.
Proof.
  unfold get_page_count, page_count, open_document.
  destruct (files w !! path_str pdf_path) as [f|]; [|reflexivity].
  destruct (fitz_open f); [reflexivity|]. destruct (pypdf2_pages f); reflexivity.
Qed.

Lemma labelling_rule pdf_path :
  SKIP_CHINESE_PDF_VLM cfg = true ->
  fst (detect_chinese_content_via_vlm cfg w pdf_path) = true <-> judged_chinese w pdf_path.
Proof.
  intros Hsw. unfold detect_chinese_content_via_vlm, judged_chinese. rewrite Hsw.
  destruct (HAS_VLM_DETECT w); cbn [negb].
  - destruct (detect_pdf_language_via_vlm w (path_str pdf_path)) as [result|e]; cbn [fst].
    + rewrite Nat.leb_le. split.
      * intros H. split; [reflexivity|]. exists result. split; [reflexivity|exact H].
      * intros (_ & result' & [= <-] & H). exact H.
    + split; [discriminate|]. intros (_ & result & Hr & _). discriminate Hr.
  - cbn [fst]. split; [discriminate|]. intros [H _]. discriminate H.
Qed.

Lemma keyword_rule (filename : str) (keywords : list str) :
  (forall keyword, keyword ∈ keywords -> lower_case keyword) ->
  existsb (contains (lower filename)) keywords = true <->
  exists keyword, keyword ∈ keywords /\ contains (lower filename) (lower keyword) = true.
Proof.
  intros Hlow. rewrite existsb_true_elem.
  split; intros (k & Hk & Hc); exists k; (split; [exact Hk|]);
    [rewrite (Hlow k Hk)|rewrite <- (Hlow k Hk)]; exact Hc.
Qed.

Lemma split_elem sep (s : str) (part : str) c :
  part ∈ split sep s -> c ∈ part -> c ∈ s.
Proof.
  revert part. induction s as [|d s IH]; intros part Hpart Hc.
  - cbn in Hpart. apply elem_of_cons in Hpart as [->|Hpart];
      [exact Hc|apply not_elem_of_nil in Hpart; destruct Hpart].
  - cbn [split] in Hpart. destruct (d =? sep).
    + apply elem_of_cons in Hpart as [->|Hpart];
        [apply not_elem_of_nil in Hc; destruct Hc|].
      apply list_elem_of_further, (IH part Hpart Hc).
    + destruct (split sep s) as [|p ps].
      * apply elem_of_cons in Hpart as [->|Hpart];
          [|apply not_elem_of_nil in Hpart; destruct Hpart].
        apply elem_of_cons in Hc as [->|Hc];
          [apply list_elem_of_here|apply not_elem_of_nil in Hc; destruct Hc].
      * apply elem_of_cons in Hpart as [->|Hpart].
        -- apply elem_of_cons in Hc as [->|Hc]; [apply list_elem_of_here|].
           apply list_elem_of_further, (IH p); [apply list_elem_of_here|exact Hc].
        -- apply list_elem_of_further, (IH part); [apply list_elem_of_further, Hpart|exact Hc].
Qed.

Lemma int_acc_decimal (s : str) acc :
  (forall c, c ∈ s -> is_Some (decimal c)) -> exists y, int_acc acc s = Ok y.
Proof.
  revert acc. induction s as [|c s IH]; intros acc H; [exists acc; reflexivity|].
  cbn [int_acc]. destruct (H c) as [d ->]; [apply list_elem_of_here|].
  apply IH. intros c' Hc'. apply H, list_elem_of_further, Hc'.
Qed.

Lemma int_decimal (s : str) :
  s <> [] -> (forall c, c ∈ s -> is_Some (decimal c)) -> exists y, int s = Ok y.
Proof. intros Hne H. destruct s; [congruence|]. apply int_acc_decimal, H. Qed.

Lemma is_normalized_name_total stem :
  decimal_digits stem -> exists b, is_normalized_name stem = Ok b.
Proof.
  intros Hdec. unfold is_normalized_name.
  destruct (contains_chinese_characters stem); [eexists; reflexivity|].
  destruct (length (split 45%N stem) <? 3)%nat eqn:Hlen; [eexists; reflexivity|].
  destruct (str_isdigit (nth 1 (split 45 stem) [])) eqn:Hdig.
  - assert (Hyear : exists y, int (nth 1 (split 45 stem) []) = Ok y).
    { unfold str_isdigit in Hdig. apply andb_true_iff in Hdig as [Hne Hall].
      apply int_decimal.
      - intros E. rewrite E in Hne. discriminate Hne.
      - intros c Hc. apply Hdec.
        + apply (split_elem 45 stem (nth 1 (split 45 stem) [])); [|exact Hc].
          apply list_elem_of_In, nth_In. apply Nat.ltb_ge in Hlen. lia.
        + rewrite forallb_true_elem in Hall. apply Hall, Hc. }
    destruct Hyear as [y ->]. cbn [mbind res_bind].
    destruct (negb _); [eexists; reflexivity|].
    destruct (existsb isdigit _); [eexists; reflexivity|].
    destruct (negb _); [eexists; reflexivity|].
    destruct (negb _); eexists; reflexivity.
  - cbn [mbind res_bind negb]. eexists; reflexivity.
Qed.

Lemma name_rule stem :
  decimal_digits stem ->
  exists b, negb <$> is_normalized_name stem = Ok b /\ (b = true <-> ~ valid_name stem).
Proof.
  intros Hdec. destruct (is_normalized_name_total stem Hdec) as [b Hb].
  exists (negb b). rewrite Hb. split; [reflexivity|].
  rewrite <- is_normalized_name_valid, Hb. destruct b; cbn [negb]; split; congruence.
Qed.

Lemma first_match_decides (matches : Rule -> Prop) (chain : list Entry) :
  (forall k e, chain !! k = Some e ->
     (forall j e', (j < k)%nat -> chain !! j = Some e' -> ~ matches (entry_rule e')) ->
     exists b, entry_applies e = Ok b /\ (b = true <-> matches (entry_rule e))) ->
  (forall k e, chain !! k = Some e -> matches (entry_rule e) ->
     (forall j e', (j < k)%nat -> chain !! j = Some e' -> ~ matches (entry_rule e')) ->
     first_match chain = (take (S k) (entry_rule <$> chain), Ok (true, entry_reason e))) /\
  ((forall e, e ∈ chain -> ~ matches (entry_rule e)) ->
   first_match chain = (entry_rule <$> chain, Ok (false, []))).
Proof.
  intros Hbridge.
  assert (Hfalse : forall k,
            (forall j e', (j < k)%nat -> chain !! j = Some e' -> ~ matches (entry_rule e')) ->
            forall j e', (j < k)%nat -> chain !! j = Some e' -> entry_applies e' = Ok false).
  { intros k Hbefore j e' Hj He'.
    destruct (Hbridge j e' He') as (b & -> & Hb).
    - intros i e'' Hi. apply Hbefore. lia.
    - destruct b; [|reflexivity]. exfalso. apply (Hbefore j e' Hj He'), Hb. reflexivity. }
  split.
  - intros k e Hk Hm Hbefore. apply first_match_hit; [exact Hk| |apply Hfalse, Hbefore].
    destruct (Hbridge k e Hk Hbefore) as (b & -> & Hb). f_equal. apply Hb, Hm.
  - intros Hnone. apply first_match_all_false. intros e He.
    apply list_elem_of_lookup in He as [k Hk].
    apply (Hfalse (S k)) with (j := k); [|lia|exact Hk].
    intros j e' _ He'. apply Hnone. apply list_elem_of_lookup. exists j. exact He'.
Qed.

End Rules.
Section RulesOfTheEvaluator.
Context {U : Unicode} (cfg : Config) (w : World).
Import design pdf_batch_translator.

Lemma pages_rule pdf_path :
  page_count w pdf_path <> None ->
  (MAX_PAGES cfg < Z.of_nat (default 0%nat (page_count w pdf_path)))%Z <->
  exists n, page_count w pdf_path = Some n /\ (MAX_PAGES cfg < Z.of_nat n)%Z.
Proof.
  intros Hsome. destruct (page_count w pdf_path) as [n|]; [|congruence].
  cbn [default from_option id]. split.
  - intros H. exists n. split; [reflexivity|exact H].
  - intros (n' & [= <-] & H). exact H.
Qed.

Lemma tests_follow_rules pdf_path keywords counts size :
  all_switches_enabled cfg ->
  (forall keyword, keyword ∈ keywords -> lower_case keyword) ->
  decimal_digits (stem pdf_path) ->
  let chain := evaluator.tests cfg w pdf_path keywords counts size (backup_of pdf_path) in
  let matches := spec_matches cfg w pdf_path keywords counts size in
  forall k e, chain !! k = Some e ->
    (k = 10%nat -> size <> MAX_SIZE_BYTES cfg) ->
    (forall j e', (j < k)%nat -> chain !! j = Some e' -> ~ matches (entry_rule e')) ->
    exists b, entry_applies e = Ok b /\ (b = true <-> matches (entry_rule e)).
Proof.
  intros Hsw Hlow Hdec chain matches k e Hk Hsize Hbefore.
  destruct Hsw as (_ & _ & _ & _ & _ & _ & H12).
  assert (H9 : (8 < k)%nat -> page_count w pdf_path <> None).
  { intros Hlt. apply (Hbefore 8%nat _ Hlt eq_refl). }
  subst chain matches. unfold evaluator.tests in Hk. clear Hbefore. revert H9 Hsize Hk.
  destruct k as [|k];
    [intros H9 Hsize [= <-]; cbn [entry_applies entry_rule spec_matches];
     eexists; split; [reflexivity|]; apply bool_decide_eq_true|].
  destruct k as [|k];
    [intros H9 Hsize [= <-]; cbn [entry_applies entry_rule spec_matches];
     eexists; split; [reflexivity|]; reflexivity|].
  destruct k as [|k];
    [intros H9 Hsize [= <-]; cbn [entry_applies entry_rule spec_matches];
     eexists; split; [reflexivity|]; rewrite orb_true_iff; reflexivity|].
  destruct k as [|k];
    [intros H9 Hsize [= <-]; cbn [entry_applies entry_rule spec_matches];
     eexists; split; [reflexivity|]; apply metadata_rule|].
  destruct k as [|k];
    [intros H9 Hsize [= <-]; cbn [entry_applies entry_rule spec_matches];
     eexists; split; [reflexivity|]; apply keyword_rule, Hlow|].
  destruct k as [|k];
    [intros H9 Hsize [= <-]; cbn [entry_applies entry_rule spec_matches];
     eexists; split; [reflexivity|]; apply bool_decide_eq_true|].
  destruct k as [|k];
    [intros H9 Hsize [= <-]; cbn [entry_applies entry_rule spec_matches];
     eexists; split; [reflexivity|]; apply existsb_true_elem|].
  destruct k as [|k];
    [intros H9 Hsize [= <-]; cbn [entry_applies entry_rule spec_matches];
     apply name_rule, Hdec|].
  destruct k as [|k];
    [intros H9 Hsize [= <-]; cbn [entry_applies entry_rule spec_matches];
     eexists; split; [reflexivity|]; rewrite bool_decide_eq_true, page_count_rule; reflexivity|].
  destruct k as [|k];
    [intros H9 Hsize [= <-]; cbn [entry_applies entry_rule spec_matches];
     eexists; split; [reflexivity|]; rewrite bool_decide_eq_true, page_count_rule; apply pages_rule, H9; lia|].
  destruct k as [|k];
    [intros H9 Hsize [= <-]; cbn [entry_applies entry_rule spec_matches];
     eexists; split; [reflexivity|]; rewrite bool_decide_eq_true; specialize (Hsize eq_refl); lia|].
  destruct k as [|k];
    [intros H9 Hsize [= <-]; cbn [entry_applies entry_rule spec_matches];
     eexists; split; [reflexivity|]; apply labelling_rule, H12|].
  intros _ _ Hk. discriminate Hk.
Qed.

(** The evaluator returns at the first rule of the design that matches,
    and does not exclude when none does. *)
Lemma run_follows_rules pdf_path keywords counts size :
  all_switches_enabled cfg ->
  stat_size w pdf_path = Ok size ->
  name pdf_path <> [] ->
  (forall keyword, keyword ∈ keywords -> lower_case keyword) ->
  size <> MAX_SIZE_BYTES cfg ->
  decimal_digits (stem pdf_path) ->
  let run := should_exclude_from_processing cfg w pdf_path keywords counts in
  let matches := spec_matches cfg w pdf_path keywords counts size in
  (forall k r, first_matching matches k r ->
     exists reason, run = (take (S k) priority, Ok (true, reason)) /\
                    startswith reason (tag r) = true) /\
  ((forall r, ~ matches r) -> run = (priority, Ok (false, []))).
Proof.
  intros Hsw Hstat Hname Hlow Hsize Hdec run matches.
  set (chain := evaluator.tests cfg w pdf_path keywords counts size (backup_of pdf_path)).
  assert (Hrun : run = first_match chain)
    by (apply should_exclude_refines; assumption).
  assert (Hprio : entry_rule <$> chain = priority) by reflexivity.
  destruct (first_match_decides matches chain) as [Hhit Hnone].
  { intros k e Hk. apply (tests_follow_rules pdf_path keywords counts size Hsw Hlow Hdec k e Hk).
    intros _. exact Hsize. }
  assert (Hrule : forall j r, priority !! j = Some r ->
                    exists e, chain !! j = Some e /\ entry_rule e = r).
  { intros j r Hj. rewrite <- Hprio, list_lookup_fmap in Hj.
    destruct (chain !! j) as [e|]; [|discriminate Hj].
    injection Hj as <-. exists e. split; reflexivity. }
  split.
  - intros k r (Hk & Hm & Hbefore).
    destruct (Hrule k r Hk) as (e & He & <-).
    exists (entry_reason e). split.
    + rewrite Hrun, <- Hprio. apply Hhit; [exact He|exact Hm|].
      intros j e' Hj He'. apply (Hbefore j); [exact Hj|].
      rewrite <- Hprio, list_lookup_fmap, He'. reflexivity.
    + apply (tests_tags cfg w pdf_path keywords counts size (backup_of pdf_path)).
      apply list_elem_of_lookup. exists k. exact He.
  - intros Hno. rewrite Hrun, <- Hprio. apply Hnone. intros e _. apply Hno.
Qed.

End RulesOfTheEvaluator.
Section RulesAtWork.
Context {U : Unicode} (cfg : Config) (w : World).
Import design pdf_batch_translator.

Lemma every_rule_has_priority (r : Rule) : exists k, priority !! k = Some r.
Proof.
  destruct r;
    [exists 0%nat|exists 1%nat|exists 2%nat|exists 3%nat|exists 4%nat|exists 5%nat
    |exists 6%nat|exists 7%nat|exists 8%nat|exists 9%nat|exists 10%nat|exists 11%nat];
    reflexivity.
Qed.

(** What the tests answer tells which rules of the design match, as
    long as the size rule is not asked about the maximum itself. *)
Lemma tests_tell_rules pdf_path keywords counts size :
  all_switches_enabled cfg ->
  (forall keyword, keyword ∈ keywords -> lower_case keyword) ->
  decimal_digits (stem pdf_path) ->
  let chain := evaluator.tests cfg w pdf_path keywords counts size (backup_of pdf_path) in
  let matches := spec_matches cfg w pdf_path keywords counts size in
  forall k,
    ((10 < k)%nat -> size <> MAX_SIZE_BYTES cfg) ->
    (forall j e, (j < k)%nat -> chain !! j = Some e -> entry_applies e = Ok false) ->
    forall j r, (j < k)%nat -> priority !! j = Some r -> ~ matches r.
Proof.
  intros Hsw Hlow Hdec chain matches k Hsize Hfalse.
  assert (Hprio : entry_rule <$> chain = priority) by reflexivity.
  induction j as [j IH] using lt_wf_ind. intros r Hj Hr.
  rewrite <- Hprio, list_lookup_fmap in Hr.
  destruct (chain !! j) as [e|] eqn:He; [|discriminate Hr]. injection Hr as <-.
  destruct (tests_follow_rules cfg w pdf_path keywords counts size Hsw Hlow Hdec j e He)
    as (b & Hb & Hiff).
  - intros ->. apply Hsize. lia.
  - intros i e' Hi He'. change (chain !! i = Some e') in He'.
    apply (IH i Hi (entry_rule e')); [lia|].
    rewrite <- Hprio, list_lookup_fmap, He'. reflexivity.
  - rewrite (Hfalse j e Hj He) in Hb. injection Hb as <-.
    intros Hm. apply Hiff in Hm. discriminate Hm.
Qed.


End RulesAtWork.
Section RulesAndFailures.
Context {U : Unicode} (cfg : Config) (w : World).
Import design pdf_batch_translator.




End RulesAndFailures.

Lemma ascii_decimal_digits (s : str) : @design.decimal_digits ascii_only s.
Proof.
  intros c _ Hc. cbn [decimal ascii_only]. unfold ascii_decimal.
  cbn [isdigit ascii_only] in Hc. rewrite Hc. eexists. reflexivity.
Qed.

Lemma no_keywords {U : Unicode} (keyword : str) : keyword ∈ [] -> design.lower_case keyword.
Proof. intros H. apply not_elem_of_nil in H. destruct H. Qed.


(** C1.  The evaluator departs from the rules of the design at two
    places.  The paper has exactly the greatest size allowed, no rule
    matches it, and the evaluator excludes it with reason
    size_gt_104857600.  The keyword Study is in the name of the paper, so
    that rule 5 is the first that matches, and the evaluator, which lowers
    the name and not the keyword, does not exclude the paper. *)
Theorem C1_maximal_size_is_excluded :
  (stat_size sample.full_size_world sample.paper_path = Ok (MAX_SIZE_BYTES sample.cfg) /\
   (forall r, ~ @design.spec_matches ascii_only sample.cfg sample.full_size_world
                  sample.paper_path [] ∅ 104857600 r) /\
   @pdf_batch_translator.should_exclude_from_processing ascii_only sample.cfg
     sample.full_size_world sample.paper_path [] ∅ =
   (take 11 design.priority, Ok (true, lit "size_gt_104857600"))) /\
  (design.first_matching
     (@design.spec_matches ascii_only sample.cfg sample.world sample.paper_path
        [lit "Study"] ∅ 4096)
     4 contains_exclusion_keywords_ /\
   @pdf_batch_translator.should_exclude_from_processing ascii_only sample.cfg
     sample.world sample.paper_path [lit "Study"] ∅ =
   (design.priority, Ok (false, []))).
Proof.
  assert (H1 : design.all_switches_enabled sample.cfg) by (repeat split).
  split; [split; [reflexivity|split]|split; [|vm_compute; reflexivity]].
  - intros r. destruct (every_rule_has_priority r) as [k Hk].
    destruct (decide (k < 10)%nat) as [Hlt|Hge].
    + apply (@tests_tell_rules ascii_only sample.cfg sample.full_size_world
               sample.paper_path [] ∅ 104857600%Z H1 no_keywords (ascii_decimal_digits _)
               10%nat) with (j := k); [lia| |exact Hlt|exact Hk].
      intros j e Hj He.
      do 10 (destruct j as [|j]; [vm_compute in He; injection He as <-; reflexivity|]).
      lia.
    + do 10 (destruct k as [|k]; [lia|]).
      destruct k as [|[|k]]; [| |discriminate Hk]; injection Hk as <-.
      * cbn. lia.
      * intros (_ & result & Hresult & Hle). vm_compute in Hresult.
        injection Hresult as <-. simpl in Hle. lia.
  - vm_compute. reflexivity.
  - split; [reflexivity|]. split.
    + exists (lit "Study"). split; [apply list_elem_of_here|vm_compute; reflexivity].
    + intros j r Hj Hr.
      destruct j as [|[|[|[|j]]]]; [..|lia]; injection Hr as <-.
      * cbn [design.spec_matches]. rewrite lookup_empty. cbn [default from_option id]. lia.
      * vm_compute. congruence.
      * intros [H|H]; vm_compute in H; congruence.
      * intros H. apply (metadata_rule sample.world sample.paper_path) in H.
        vm_compute in H. congruence.
Qed.
Lemma count_canonical_positive (names : list str) :
  (1 <= length (List.filter (fun n => str_eqb n pdf_batch_translator.meta_name) names))%nat ->
  fitz.str_in pdf_batch_translator.meta_name names = true.
Proof.
  intros H. destruct (fitz.str_in pdf_batch_translator.meta_name names) eqn:Hin; [reflexivity|].
  apply count_canonical_zero in Hin. lia.
Qed.

Section EmbedTwice.
Import design pdf_batch_translator pdf_orphan_metadata_manager.

Lemma saveIncr_ok w path f doc :
  files w !! path = Some f -> incremental f = true ->
  saveIncr w path doc =
  Ok (with_files w (<[path := mkFile (encoded_size w doc) (Ok doc) (pypdf2_pages f) true]>
                      (files w))).
Proof. intros Hf Hinc. unfold saveIncr. rewrite Hf, Hinc. reflexivity. Qed.

Lemma embfile_add_fresh doc n data :
  fitz.str_in n (fitz.embfile_names doc) = false ->
  fitz.embfile_add doc n data =
  Ok (fitz.mkDocument (fitz.pages doc) (fitz.embfiles doc ++ [(n, data)])
                      (fitz.needs_password doc)).
Proof. intros H. unfold fitz.embfile_add. rewrite H. reflexivity. Qed.

Lemma canonical_count_saved w path f doc :
  files w !! path_str path = Some f -> incremental f = true ->
  canonical_count
    (with_files w (<[path_str path :=
                       mkFile (encoded_size w doc) (Ok doc) (pypdf2_pages f) true]> (files w)))
    path =
  length (List.filter (fun n => str_eqb n meta_name) (fitz.embfile_names doc)).
Proof.
  intros Hf Hinc. unfold canonical_count, open_document, with_files. cbn [files].
  rewrite lookup_insert_eq. reflexivity.
Qed.

(** C4.  A document that can be opened and saved and has no attachment
    with the canonical name.  The embed operation of the orphan tool
    succeeds on it, leaves exactly one such attachment, and a second call
    reports already_exists and changes nothing.  The embed operation of
    the batch translator succeeds on it and leaves exactly one such
    attachment too, but its second call does not look for the name: the
    library refuses the name, the call reports the failure, and nothing
    changes. *)
Theorem C4_embed_twice (w : World) (pdf_path original_pdf : Path) (f : File)
    (doc : fitz.Document) (metadata metadata' : json) :
  files w !! path_str pdf_path = Some f ->
  fitz_open f = Ok doc ->
  incremental f = true ->
  fitz.str_in meta_name (fitz.embfile_names doc) = false ->
  (exists w1,
     embed_metadata_attachment w pdf_path metadata = ((true, lit "success"), w1) /\
     canonical_count w1 pdf_path = 1%nat /\
     embed_metadata_attachment w1 pdf_path metadata' = ((true, lit "already_exists"), w1)) /\
  (is_Some (files w !! path_str original_pdf) ->
   exists w1,
     embed_original_file_attachment w pdf_path original_pdf metadata = ((true, []), w1) /\
     canonical_count w1 pdf_path = 1%nat /\
     embed_original_file_attachment w1 pdf_path original_pdf metadata' =
       ((false, exn_str w1 ValueError), w1)).
Proof.
  intros Hf Hopen Hinc Hfresh.
  assert (Hdoc : open_document w (path_str pdf_path) = Ok doc)
    by (unfold open_document; rewrite Hf; exact Hopen).
  assert (Hone : forall pages,
            length (List.filter (fun n => str_eqb n meta_name)
                      (fitz.embfile_names
                         (fitz.mkDocument pages
                            (fitz.embfiles doc ++ [(meta_name, json_dumps_encode metadata)])
                            (fitz.needs_password doc)))) = 1%nat).
  { intros pages. unfold fitz.embfile_names. cbn [fitz.embfiles].
    rewrite fmap_app. cbn [fmap list_fmap fst]. rewrite count_canonical_app.
    apply count_canonical_zero in Hfresh. unfold fitz.embfile_names in Hfresh.
    rewrite Hfresh. reflexivity. }
  split.
  - eexists. split; [|split].
    + unfold embed_metadata_attachment. rewrite Hdoc. cbn [mbind res_bind].
      rewrite Hfresh, (embfile_add_fresh _ _ _ Hfresh). cbn [mbind res_bind].
      rewrite (saveIncr_ok _ _ _ _ Hf Hinc). cbn [mbind res_bind]. reflexivity.
    + rewrite (canonical_count_saved _ _ _ _ Hf Hinc). apply Hone.
    + eapply embed_already_exists.
      * unfold open_document, with_files. cbn [files]. rewrite lookup_insert_eq. reflexivity.
      * apply count_canonical_positive. rewrite Hone. lia.
  - intros [orig Horig].
    unfold embed_original_file_attachment at 1. rewrite Hdoc. cbn [mbind res_bind].
    rewrite (embfile_add_fresh _ _ _ Hfresh). cbn [mbind res_bind fitz.pages].
    destruct (fitz.pages doc) as [|page others] eqn:Hpages.
    + cbn [mbind res_bind]. rewrite (saveIncr_ok _ _ _ _ Hf Hinc).
      eexists. split; [reflexivity|]. split.
      * rewrite (canonical_count_saved _ _ _ _ Hf Hinc). apply Hone.
      * unfold embed_original_file_attachment, open_document, with_files. cbn [files].
        rewrite lookup_insert_eq. cbn [mbind res_bind fitz_open].
        unfold fitz.embfile_add.
        rewrite (count_canonical_positive _ (eq_ind_r (fun n => (1 <= n)%nat) (le_n 1) (Hone []))).
        reflexivity.
    + rewrite Horig. cbn [mbind res_bind fitz.embfiles fitz.needs_password].
      rewrite (saveIncr_ok _ _ _ _ Hf Hinc).
      eexists. split; [reflexivity|]. split.
      * rewrite (canonical_count_saved _ _ _ _ Hf Hinc). apply Hone.
      * unfold embed_original_file_attachment, open_document, with_files. cbn [files].
        rewrite lookup_insert_eq. cbn [mbind res_bind fitz_open].
        unfold fitz.embfile_add.
        match goal with
        | |- context [fitz.str_in meta_name (fitz.embfile_names ?d)] =>
            rewrite (count_canonical_positive (fitz.embfile_names d)
                       (eq_ind_r (fun n => (1 <= n)%nat) (le_n 1) (Hone (fitz.pages d))))
        end.
        reflexivity.
Qed.

End EmbedTwice.
Lemma C4_witness :
  exists w1,
    pdf_batch_translator.embed_original_file_attachment sample.world sample.paper_path
      sample.mono_path sample.translated_meta = ((true, []), w1) /\
    design.canonical_count w1 sample.paper_path = 1%nat /\
    pdf_batch_translator.embed_original_file_attachment w1 sample.paper_path
      sample.mono_path sample.translated_meta = ((false, exn_str w1 ValueError), w1).
Proof.
  apply (proj2 (C4_embed_twice sample.world sample.paper_path sample.mono_path
                  (mkFile 4096 (Ok sample.paper) (Ok 2%nat) true) sample.paper
                  sample.translated_meta sample.translated_meta
                  ltac:(vm_compute; reflexivity) eq_refl eq_refl eq_refl)).
  eexists. vm_compute. reflexivity.
Defined.

Section NestedStatus.
Context {U : Unicode} (cfg : Config) (w : World).
Import design pdf_batch_translator pdf_pair_metadata_manager.

(** C6.  A document whose attachment with the canonical name is what the
    pair tool writes for a translated document: the status sits under the
    key pdf2zh, the reader looks for the key pdf2zh.status at the top,
    finds none, and answers unknown_status; the document is not excluded
    when no other rule matches. *)
Theorem C6_nested_status_is_not_read (pdf_path : Path) (doc : fitz.Document)
    (now model_name : str) (source_sizes result_sizes : list PageSize) (gap_pt : Q)
    (keywords : list str) (counts : gmap str nat) (size : Z) :
  open_document w (path_str pdf_path) = Ok doc ->
  fitz.embfile_get doc meta_name =
    Ok (json_dumps_encode
          (build_translated_meta now source_sizes result_sizes model_name gap_pt)) ->
  check_translation_metadata_status w pdf_path = (false, lit "unknown_status:") /\
  (all_switches_enabled cfg ->
   stat_size w pdf_path = Ok size ->
   name pdf_path <> [] ->
   (forall keyword, keyword ∈ keywords -> lower_case keyword) ->
   size <> MAX_SIZE_BYTES cfg ->
   decimal_digits (stem pdf_path) ->
   (forall r, r <> already_translated_by_metadata ->
              ~ spec_matches cfg w pdf_path keywords counts size r) ->
   should_exclude_from_processing cfg w pdf_path keywords counts =
   (priority, Ok (false, []))).
Proof.
  intros Hopen Hget. split.
  - unfold check_translation_metadata_status. rewrite Hopen. cbn [mbind res_bind].
    rewrite (embfile_get_named _ _ _ Hget), Hget. reflexivity.
  - intros Hsw Hstat Hname Hlow Hsize Hdec Hothers.
    apply (run_follows_rules cfg w pdf_path keywords counts size
             Hsw Hstat Hname Hlow Hsize Hdec).
    intros r. destruct (decide (r = already_translated_by_metadata)) as [->|Hr];
      [|apply Hothers, Hr].
    intros (doc' & fields & Hopen' & Hget' & Hstatus).
    rewrite Hopen in Hopen'. injection Hopen' as <-.
    rewrite Hget in Hget'. injection Hget' as <-.
    vm_compute in Hstatus. discriminate Hstatus.
Qed.

End NestedStatus.

Lemma C6_witness :
  @pdf_batch_translator.check_translation_metadata_status sample.pair_stamped_world
    sample.paper_path = (false, lit "unknown_status:") /\
  @pdf_batch_translator.should_exclude_from_processing ascii_only sample.cfg
    sample.pair_stamped_world sample.paper_path [] ∅ = (design.priority, Ok (false, [])).
Proof.
  assert (H1 : design.all_switches_enabled sample.cfg) by (repeat split).
  destruct (@C6_nested_status_is_not_read ascii_only sample.cfg sample.pair_stamped_world
              sample.paper_path sample.pair_stamped sample.now
              (lit "Qwen/Qwen2.5-7B-Instruct") [] [] 0 [] ∅ 4096%Z
              ltac:(vm_compute; reflexivity) ltac:(vm_compute; reflexivity)) as [Hread Hrun].
  split; [exact Hread|].
  apply Hrun; [exact H1|vm_compute; reflexivity|discriminate|apply no_keywords
              |cbn; lia|apply ascii_decimal_digits|].
  intros r _. destruct (every_rule_has_priority r) as [k Hk].
  apply (@tests_tell_rules ascii_only sample.cfg sample.pair_stamped_world sample.paper_path
           [] ∅ 4096%Z H1 no_keywords (ascii_decimal_digits _) 12%nat) with (j := k);
    [intros _; cbn; lia| | |exact Hk].
  - intros j e Hj He.
    do 12 (destruct j as [|j]; [vm_compute in He; injection He as <-; reflexivity|]).
    lia.
  - apply lookup_lt_Some in Hk. simpl in Hk. exact Hk.
Defined.
